(** * Direct-messaging subsystem: chat service, chat controller, client hook

    A shallow embedding of

    - the chat service ([saveChat], [createMessage], [addMessageToChat],
      [getChat], [getChatsByParticipants], [addParticipantToChat]),
    - the chat controller ([createChatRoute], [addMessageToChatRoute],
      [getChatRoute], [getChatsByUserRoute], [addParticipantToChatRoute]),
    - the client hook [useDirectMessage] (its [handleChatUpdate] handler),

    over an explicit model of the three Mongoose collections and of the
    socket the controller emits on.  Asynchronous code is read sequentially:
    every [await] is a call in a state-and-exception monad. *)

From stdpp Require Import gmap strings list pretty.
From Stdlib Require Import ZArith.
From Stdlib Require QArith.

Module Server.

(** ** Data *)

(** An ObjectId is handled by the code through its string form only
    ([_id.toString()], route parameters), so it is represented by that
    string. *)
Definition ObjectId := string.

(** A [Date], as milliseconds since the epoch. *)
Definition Date := Z.

Inductive MessageType := global | direct.

(** A message as a plain object.  Any field may be absent at run time
    (the service writes [message.msgDateTime || new Date()], the tests
    build messages without [type]). *)
Record Message := mkMessage {
  msg_id : option ObjectId;
  msg : option string;
  msgFrom : option string;
  msgDateTime : option Date;
  msg_type : option MessageType
}.

(** A chat as a plain object ([_id], [createdAt], [updatedAt] optional). *)
Record Chat := mkChat {
  chat_id : option ObjectId;
  participants : list string;
  messages : list ObjectId;
  createdAt : option Date;
  updatedAt : option Date
}.

Record User := mkUser { username : string }.

(** [T | { error: string }] *)
Inductive Resp (T : Type) :=
| Doc (t : T)
| ErrorObj (error : string).
Arguments Doc {T} t.
Arguments ErrorObj {T} error.

Definition MessageResponse := Resp Message.
Definition ChatResponse := Resp Chat.

Record CreateChatPayload := mkPayload {
  p_participants : list string;
  p_messages : list Message
}.

(** ** Stored documents *)

Record MessageDoc := mkMessageDoc {
  md_id : ObjectId;
  md_msg : option string;
  md_msgFrom : option string;
  md_msgDateTime : option Date;
  md_type : option MessageType
}.

(** [chatSchema]: [participants] (strings referring to users), [messages]
    (ObjectIds referring to messages), [timestamps: true]. *)
Record ChatDoc := mkChatDoc {
  cd_id : ObjectId;
  cd_participants : list string;
  cd_messages : list ObjectId;
  cd_createdAt : Date;
  cd_updatedAt : Date
}.

(** [doc.toObject()] *)
Definition message_toObject (d : MessageDoc) : Message :=
  mkMessage (Some (md_id d)) (md_msg d) (md_msgFrom d) (md_msgDateTime d) (md_type d).

Definition chat_toObject (d : ChatDoc) : Chat :=
  mkChat (Some (cd_id d)) (cd_participants d) (cd_messages d)
         (Some (cd_createdAt d)) (Some (cd_updatedAt d)).

(** ** Enriched chats and socket events *)

(** Modelled from the spec: the result type of [populateDocument] for a chat
    ([utils/database.util] is not among the sources).  The spec: "replaces
    messageIds with full Message objects and resolves participant
    identifiers to minimal user-display objects". *)
Record PopulatedChat := mkPopulatedChat {
  pc_id : ObjectId;
  pc_participants : list User;
  pc_messages : list Message;
  pc_createdAt : Date;
  pc_updatedAt : Date
}.

(** The payload of a [chatUpdate] event.  The controller puts whatever
    [populateDocument] returned under [chat]. *)
Record ChatUpdatePayload := mkChatUpdate {
  upd_chat : Resp PopulatedChat;
  upd_type : string
}.

(** [socket.to(room).emit('chatUpdate', payload)] *)
Record Emit := mkEmit {
  em_room : string;
  em_payload : ChatUpdatePayload
}.

(** ** Exceptions *)

Record Exn := mkExn { exn_name : string; exn_message : string }.

(** [new Error(message)] *)
Definition Error (message : string) : Exn := mkExn "Error" message.

(** What a failing storage call throws. *)
Definition StorageFault : Exn := mkExn "MongooseError" "storage call failed".

(** [`${exception}`] *)
Definition exn_toString (e : Exn) : string :=
  exn_name e +:+ ": " +:+ exn_message e.

(** ** The world *)

(** The storage calls the code makes, recorded in the order they are made. *)
Inductive StorageOp :=
| UserFindById (id : string)
| MessageCreate
| ChatCreate
| ChatFindByIdAndUpdate (chatId : string)
| ChatFindById (chatId : string)
| ChatFind (p : list string)
| ChatPopulate (id : string).

(** The three collections in insertion order, the id generator, the clock,
    the socket's outgoing events, and two pieces of environment: [faults]
    says for each coming storage call whether it throws (connection loss,
    cast or validation error; past the end of the list no call throws) and
    [oplog] records the storage calls made so far. *)
Record World := mkWorld {
  users : gmap string User;
  messageColl : list MessageDoc;
  chatColl : list ChatDoc;
  next_oid : nat;
  clock : Date;
  faults : list bool;
  oplog : list StorageOp;
  outbox : list Emit
}.

Definition set_messageColl (ms : list MessageDoc) (w : World) : World :=
  mkWorld (users w) ms (chatColl w) (next_oid w) (clock w) (faults w) (oplog w) (outbox w).

Definition set_chatColl (cs : list ChatDoc) (w : World) : World :=
  mkWorld (users w) (messageColl w) cs (next_oid w) (clock w) (faults w) (oplog w) (outbox w).

Definition set_next_oid (n : nat) (w : World) : World :=
  mkWorld (users w) (messageColl w) (chatColl w) n (clock w) (faults w) (oplog w) (outbox w).

Definition set_faults (fs : list bool) (w : World) : World :=
  mkWorld (users w) (messageColl w) (chatColl w) (next_oid w) (clock w) fs (oplog w) (outbox w).

Definition set_oplog (ops : list StorageOp) (w : World) : World :=
  mkWorld (users w) (messageColl w) (chatColl w) (next_oid w) (clock w) (faults w) ops (outbox w).

Definition set_outbox (es : list Emit) (w : World) : World :=
  mkWorld (users w) (messageColl w) (chatColl w) (next_oid w) (clock w) (faults w) (oplog w) es.

(** ** The monad: state and exceptions *)

Inductive Outcome (A : Type) :=
| Returned (a : A)
| Thrown (e : Exn).
Arguments Returned {A} a.
Arguments Thrown {A} e.

Definition M (A : Type) : Type := World -> Outcome A * World.

Definition ret {A} (a : A) : M A := fun w => (Returned a, w).

Definition throw {A} (e : Exn) : M A := fun w => (Thrown e, w).

Definition bind {A B} (m : M A) (k : A -> M B) : M B := fun w =>
  match m w with
  | (Returned a, w') => k a w'
  | (Thrown e, w') => (Thrown e, w')
  end.

(** [try { m } catch (exception) { handler }] *)
Definition try_catch {A} (m : M A) (handler : Exn -> M A) : M A := fun w =>
  match m w with
  | (Returned a, w') => (Returned a, w')
  | (Thrown e, w') => handler e w'
  end.

Notation "x <- m ;; k" := (bind m (fun x => k))
  (at level 100, m at next level, right associativity).
Notation "m ;;; k" := (bind m (fun _ => k))
  (at level 100, right associativity).

(** [new Date()] *)
Definition new_Date : M Date := fun w => (Returned (clock w), w).

(** A storage call: it is logged, consumes the head of [faults], and throws
    when that head is [true]; otherwise [run] reads or writes the
    collections. *)
Definition begin_call (op : StorageOp) (w : World) : World :=
  set_oplog (oplog w ++ [op]) (set_faults (tail (faults w)) w).

Definition storage {A} (op : StorageOp) (run : World -> A * World) : M A := fun w =>
  let w1 := begin_call op w in
  if hd false (faults w) then (Thrown StorageFault, w1)
  else let (a, w2) := run w1 in (Returned a, w2).

(** ** The models *)

(** A new ObjectId: the generator is a counter, rendered as a string. *)
Definition fresh_oid (w : World) : ObjectId := pretty (next_oid w).

(** [UserModel.findById(id)] *)
Definition UserModel_findById (id : string) : M (option User) :=
  storage (UserFindById id) (fun w => (users w !! id, w)).

(** Modelled from the spec: the defaults of the message schema
    ([models/messages.model] and its schema are not among the sources).
    The spec, for [createMessage]: it persists a single message verbatim,
    kind defaulted to "direct", sentAt defaulted to now if absent. *)
Definition message_defaults (now : Date) (message : Message) : Message :=
  mkMessage (msg_id message) (msg message) (msgFrom message)
            (Some (default now (msgDateTime message)))
            (Some (default direct (msg_type message))).

(** Modelled from the spec: [MessageModel.create(message)] of the absent
    message model.  The message is stored verbatim but for the schema
    defaults above, under the given [_id] or a new one. *)
Definition MessageModel_create (message : Message) : M MessageDoc :=
  storage MessageCreate (fun w =>
    let stored := message_defaults (clock w) message in
    let d := mkMessageDoc (default (fresh_oid w) (msg_id stored))
               (msg stored) (msgFrom stored) (msgDateTime stored) (msg_type stored) in
    (d, set_next_oid (S (next_oid w)) (set_messageColl (messageColl w ++ [d]) w))).

(** [ChatModel.create({ participants, messages })]; [timestamps: true]. *)
Definition ChatModel_create (ps : list string) (ms : list ObjectId) : M ChatDoc :=
  storage ChatCreate (fun w =>
    let d := mkChatDoc (fresh_oid w) ps ms (clock w) (clock w) in
    (d, set_next_oid (S (next_oid w)) (set_chatColl (chatColl w ++ [d]) w))).

Definition has_id (chatId : string) (d : ChatDoc) : bool :=
  String.eqb (cd_id d) chatId.

(** [ChatModel.findById(chatId)] *)
Definition ChatModel_findById (chatId : string) : M (option ChatDoc) :=
  storage (ChatFindById chatId) (fun w => (find (has_id chatId) (chatColl w), w)).

(** The document with the given id replaced by its update; [None] when no
    document has that id. *)
Fixpoint update_by_id (chatId : string) (f : ChatDoc -> ChatDoc) (cs : list ChatDoc)
  : option (ChatDoc * list ChatDoc) :=
  match cs with
  | [] => None
  | c :: cs' =>
      if has_id chatId c then Some (f c, f c :: cs')
      else match update_by_id chatId f cs' with
           | Some (c', cs'') => Some (c', c :: cs'')
           | None => None
           end
  end.

(** [ChatModel.findByIdAndUpdate(chatId, update, { new: true })]: the updated
    document, or [null]; [timestamps: true] refreshes [updatedAt]. *)
Definition ChatModel_findByIdAndUpdate (chatId : string) (update : ChatDoc -> ChatDoc)
  : M (option ChatDoc) :=
  storage (ChatFindByIdAndUpdate chatId) (fun w =>
    let touch d := mkChatDoc (cd_id d) (cd_participants d) (cd_messages d)
                     (cd_createdAt d) (clock w) in
    match update_by_id chatId (fun d => touch (update d)) (chatColl w) with
    | Some (d', cs') => (Some d', set_chatColl cs' w)
    | None => (None, w)
    end).

(** [{ $push: { messages: messageId } }] *)
Definition push_messages (messageId : ObjectId) (d : ChatDoc) : ChatDoc :=
  mkChatDoc (cd_id d) (cd_participants d) (cd_messages d ++ [messageId])
            (cd_createdAt d) (cd_updatedAt d).

Definition includes (x : string) (l : list string) : bool :=
  existsb (String.eqb x) l.

(** [{ $addToSet: { participants: userId } }] *)
Definition addToSet_participants (userId : string) (d : ChatDoc) : ChatDoc :=
  if includes userId (cd_participants d) then d
  else mkChatDoc (cd_id d) (cd_participants d ++ [userId]) (cd_messages d)
                 (cd_createdAt d) (cd_updatedAt d).

(** [{ participants: { $all: p } }]: every element of [p] occurs in the
    array field; MongoDB's [$all] matches no document when it is passed an
    empty array. *)
Definition matches_all (p : list string) (d : ChatDoc) : bool :=
  match p with
  | [] => false
  | _ => forallb (fun u => includes u (cd_participants d)) p
  end.

(** [ChatModel.find({ participants: { $all: p } })] *)
Definition ChatModel_find_all (p : list string) : M (option (list ChatDoc)) :=
  storage (ChatFind p) (fun w => (Some (filter (fun d => matches_all p d) (chatColl w)), w)).

(** ** The chat service *)

Fixpoint saveChat_participants (participants : list string) : M (option string) :=
  match participants with
  | [] => ret None
  | participantId :: rest =>
      user <- UserModel_findById participantId ;;
      match user with
      | None => ret (Some ("User not found: " +:+ participantId))
      | Some _ => saveChat_participants rest
      end
  end.

Fixpoint saveChat_messages (messages : list Message) (messageIds : list ObjectId)
  : M (list ObjectId) :=
  match messages with
  | [] => ret messageIds
  | message :: rest =>
      now <- new_Date ;;
      let messageInDB :=
        mkMessage (msg_id message) (msg message) (msgFrom message)
                  (Some (default now (msgDateTime message))) (msg_type message) in
      createdMessage <- MessageModel_create messageInDB ;;
      saveChat_messages rest (messageIds ++ [md_id createdMessage])
  end.

Definition saveChat (chatPayload : CreateChatPayload) : M ChatResponse :=
  try_catch
    (notFound <- saveChat_participants (p_participants chatPayload) ;;
     match notFound with
     | Some error => ret (ErrorObj error)
     | None =>
         messageIds <- saveChat_messages (p_messages chatPayload) [] ;;
         savedChat <- ChatModel_create (p_participants chatPayload) messageIds ;;
         ret (Doc (chat_toObject savedChat))
     end)
    (fun _ => ret (ErrorObj "Failed to save chat")).

Definition createMessage (messageData : Message) : M MessageResponse :=
  try_catch
    (savedMessage <- MessageModel_create messageData ;;
     ret (Doc (message_toObject savedMessage)))
    (fun _ => ret (ErrorObj "Failed create message")).

Definition addMessageToChat (chatId : string) (messageId : string) : M ChatResponse :=
  try_catch
    (updatedChat <- ChatModel_findByIdAndUpdate chatId (push_messages messageId) ;;
     match updatedChat with
     | None => ret (ErrorObj "Chat not found")
     | Some updatedChat => ret (Doc (chat_toObject updatedChat))
     end)
    (fun _ => ret (ErrorObj "Failed to add message to chat")).

Definition getChat (chatId : string) : M ChatResponse :=
  try_catch
    (chat <- ChatModel_findById chatId ;;
     match chat with
     | None => ret (ErrorObj "Chat not found")
     | Some chat => ret (Doc (chat_toObject chat))
     end)
    (fun _ => ret (ErrorObj "Failed to get chat")).

Definition getChatsByParticipants (p : list string) : M (list Chat) :=
  try_catch
    (chats <- ChatModel_find_all p ;;
     match chats with
     | None => ret []
     | Some chats => ret (map chat_toObject chats)
     end)
    (fun _ => ret []).

Definition addParticipantToChat (chatId : string) (userId : string) : M ChatResponse :=
  try_catch
    (user <- UserModel_findById userId ;;
     match user with
     | None => ret (ErrorObj ("User not found: " +:+ userId))
     | Some _ =>
         updatedChat <- ChatModel_findByIdAndUpdate chatId (addToSet_participants userId) ;;
         match updatedChat with
         | None => ret (ErrorObj "Failed to add participant to chat")
         | Some updatedChat => ret (Doc (chat_toObject updatedChat))
         end
     end)
    (fun _ => ret (ErrorObj "Failed to add participant to chat")).

(** ** Enrichment *)

Definition find_message (w : World) (messageId : ObjectId) : option Message :=
  message_toObject <$> find (fun m => String.eqb (md_id m) messageId) (messageColl w).

Definition populate_chat (w : World) (d : ChatDoc) : PopulatedChat :=
  mkPopulatedChat (cd_id d)
    (omap (fun p => users w !! p) (cd_participants d))
    (omap (find_message w) (cd_messages d))
    (cd_createdAt d) (cd_updatedAt d).

(** Modelled from the spec: [populateDocument(id, 'chat')] of
    [utils/database.util], which is not among the sources.  The spec:
    [populate(entityId, kind) -> EnrichedEntity | Error(NotFound)],
    read-only; failures are returned as a tagged error value, not thrown
    (the controller tests ['error' in enrichedResult]).  One storage call
    reads the chat and resolves its references. *)
Definition populateDocument (id : option string) : M (Resp PopulatedChat) :=
  try_catch
    (match id with
     | None => throw (Error "Provided ID is undefined.")
     | Some id =>
         result <- storage (ChatPopulate id) (fun w =>
                     (populate_chat w <$> find (has_id id) (chatColl w), w)) ;;
         match result with
         | None => throw (Error ("Failed to fetch and populate chat with ID: " +:+ id))
         | Some result => ret (Doc result)
         end
     end)
    (fun error =>
       ret (ErrorObj ("Error when fetching and populating a document: " +:+ exn_message error))).

(** ** The chat controller *)

(** [!s] is false exactly for a present, non-empty string. *)
Definition truthy (s : option string) : bool :=
  match s with
  | Some s => negb (String.eqb s "")
  | None => false
  end.

(** Request bodies come from JSON: a field may be absent; [None] for
    [cc_participants] or [cc_messages] also stands for a value that is not
    an array. *)
Record CreateChatRequest := mkCreateChatRequest {
  cc_participants : option (list string);
  cc_messages : option (list Message)
}.

Record AddMessageRequestToChat := mkAddMessageRequest {
  am_chatId : string;
  am_msg : option string;
  am_msgFrom : option string;
  am_msgDateTime : option Date
}.

Record AddParticipantRequest := mkAddParticipantRequest {
  ap_chatId : string;
  ap_userId : option string
}.

Record ChatIdRequest := mkChatIdRequest { ci_chatId : string }.

Record GetChatByParticipantsRequest := mkGetChatsRequest { gc_username : option string }.

Inductive Body :=
| Text (s : string)
| Populated (r : Resp PopulatedChat)
| PopulatedList (l : list (Resp PopulatedChat))
| ChatBody (c : Chat).

(** What [res.status(status).send(body)] sent. *)
Record Response := mkResponse {
  status : nat;
  body : Body
}.

Definition send (status : nat) (body : Body) : M Response :=
  ret (mkResponse status body).

(** [socket.to(room).emit('chatUpdate', payload)] *)
Definition emit (room : string) (payload : ChatUpdatePayload) : M unit := fun w =>
  (Returned tt, set_outbox (outbox w ++ [mkEmit room payload]) w).

Fixpoint forEach {A} (l : list A) (f : A -> M unit) : M unit :=
  match l with
  | [] => ret tt
  | x :: l' => f x ;;; forEach l' f
  end.

Definition isCreateChatRequestValid (req : CreateChatRequest) : bool :=
  match cc_participants req, cc_messages req with
  | Some participants, Some _ => negb (length participants =? 0)
  | _, _ => false
  end.

Definition isAddMessageRequestValid (req : AddMessageRequestToChat) : bool :=
  truthy (am_msg req) && truthy (am_msgFrom req) && truthy (Some (am_chatId req)).

Definition isAddParticipantRequestValid (req : AddParticipantRequest) : bool :=
  truthy (ap_userId req) && truthy (Some (ap_chatId req)).

(** [req.body] of a valid create-chat request, as the payload of [saveChat]. *)
Definition createChat_payload (req : CreateChatRequest) : CreateChatPayload :=
  mkPayload (default [] (cc_participants req)) (default [] (cc_messages req)).

Definition createChatRoute (req : CreateChatRequest) : M Response :=
  if negb (isCreateChatRequestValid req) then send 400 (Text "Invalid body")
  else
    try_catch
      (result <- saveChat (createChat_payload req) ;;
       match result with
       | ErrorObj error => throw (Error error)
       | Doc result =>
           enrichedResult <- populateDocument (chat_id result) ;;
           match enrichedResult with
           | ErrorObj error => throw (Error error)
           | Doc _ =>
               forEach (participants result) (fun participant =>
                 emit participant (mkChatUpdate enrichedResult "created")) ;;;
               send 200 (Populated enrichedResult)
           end
       end)
      (fun exception =>
         send 500 (Text ("Error when creating chat: " +:+ exn_toString exception))).

(** The message the route builds:
    [{ ...req.body, type: 'direct', msgDateTime: req.body.msgDateTime || new Date() }] *)
Definition addMessage_message (req : AddMessageRequestToChat) (now : Date) : Message :=
  mkMessage None (am_msg req) (am_msgFrom req)
            (Some (default now (am_msgDateTime req))) (Some direct).

Definition addMessageToChatRoute (req : AddMessageRequestToChat) : M Response :=
  if negb (isAddMessageRequestValid req) then send 400 (Text "Invalid body")
  else
    now <- new_Date ;;
    let message := addMessage_message req now in
    let chatId := am_chatId req in
    try_catch
      (messageResult <- createMessage message ;;
       match messageResult with
       | ErrorObj error => throw (Error error)
       | Doc messageResult =>
           match msg_id messageResult with
           | None => throw (Error "Failed to add message to chat")
           | Some messageId =>
               chatResult <- addMessageToChat chatId messageId ;;
               match chatResult with
               | ErrorObj error => throw (Error error)
               | Doc chatResult =>
                   match chat_id chatResult with
                   | None => throw (Error "Invalid chat found")
                   | Some id =>
                       enrichedChat <- populateDocument (Some id) ;;
                       emit chatId (mkChatUpdate enrichedChat "newMessage") ;;;
                       send 200 (Populated enrichedChat)
                   end
               end
           end
       end)
      (fun exception =>
         send 500 (Text ("Error when adding message to chat: " +:+ exn_toString exception))).

Definition getChatRoute (req : ChatIdRequest) : M Response :=
  try_catch
    (result <- getChat (ci_chatId req) ;;
     match result with
     | ErrorObj error => throw (Error ("Failed to get chat: " +:+ error))
     | Doc result =>
         enrichedResult <- populateDocument (chat_id result) ;;
         match enrichedResult with
         | ErrorObj error => throw (Error error)
         | Doc _ => send 200 (Populated enrichedResult)
         end
     end)
    (fun _ => send 500 (Text "Failed to get chat by chatId")).

Fixpoint getChatsByUser_enrich (chatResult : list Chat) (enrichedChats : list (Resp PopulatedChat))
  : M (list (Resp PopulatedChat)) :=
  match chatResult with
  | [] => ret enrichedChats
  | chat :: rest =>
      match chat_id chat with
      | None => throw (Error "Invalid chat found")
      | Some id =>
          enrichedChat <- populateDocument (Some id) ;;
          match enrichedChat with
          | ErrorObj _ => throw (Error "Failed populating chats")
          | Doc _ => getChatsByUser_enrich rest (enrichedChats ++ [enrichedChat])
          end
      end
  end.

Definition getChatsByUserRoute (req : GetChatByParticipantsRequest) : M Response :=
  if negb (truthy (gc_username req)) then send 400 (Text "Invalid body")
  else
    let username := default "" (gc_username req) in
    try_catch
      (chatResult <- getChatsByParticipants [username] ;;
       enrichedChats <- getChatsByUser_enrich chatResult [] ;;
       send 200 (PopulatedList enrichedChats))
      (fun exception =>
         send 500 (Text ("Error retrieving chat: " +:+ exn_message exception))).

Definition addParticipantToChatRoute (req : AddParticipantRequest) : M Response :=
  if negb (isAddParticipantRequestValid req) then send 400 (Text "Invalid body")
  else
    let chatId := ap_chatId req in
    let userId := default "" (ap_userId req) in
    try_catch
      (result <- addParticipantToChat chatId userId ;;
       match result with
       | ErrorObj error =>
           send 500 (Text ("Failed to add participant to chat room " +:+ error))
       | Doc result => send 200 (ChatBody result)
       end)
      (fun exception =>
         send 500 (Text ("Failed to add participant to chat room: " +:+ exn_toString exception))).

(** ** Vocabulary of the statements *)

(** None of the next [n] storage calls throws. *)
Definition no_fault (n : nat) (w : World) : bool :=
  forallb negb (take n (faults w)).

(** The storage calls made between two worlds. *)
Definition calls_between (w w' : World) (ops : list StorageOp) : Prop :=
  oplog w' = oplog w ++ ops.

(** The events emitted between two worlds. *)
Definition emitted_between (w w' : World) (es : list Emit) : Prop :=
  outbox w' = outbox w ++ es.

(** A storage call that writes a document. *)
Definition is_create (op : StorageOp) : bool :=
  match op with
  | MessageCreate | ChatCreate => true
  | _ => false
  end.

(** A computation that leaves the component [f] of the world as it was,
    whatever it returns or throws. *)
Definition preserves {A B} (f : World -> B) (m : M A) : Prop :=
  forall w, f (m w).2 = f w.

(** The world after the read-only storage calls [ops]: they are logged
    and each has consumed one entry of [faults]. *)
Definition after_calls (ops : list StorageOp) (w : World) : World :=
  set_oplog (oplog w ++ ops) (set_faults (drop (length ops) (faults w)) w).

(** A computation that returns: it does not throw. *)
Definition returns {A} (m : M A) : Prop :=
  forall w, exists a, (m w).1 = Returned a.

(** The chats whose participant set is a superset of [p], in storage
    order: the result the spec gives for [getChatsByParticipants]. *)
Definition superset_chats (p : list string) (w : World) : list Chat :=
  chat_toObject <$> filter (fun d => p ⊆ cd_participants d) (chatColl w).

(** Every response the computation returns satisfies [P]. *)
Definition answers (P : Response -> Prop) (m : M Response) : Prop :=
  forall w r w', m w = (Returned r, w') -> P r.

(** The documents the message loop of [saveChat] stores for [ms] when the
    id generator stands at [n] and the clock at [now]. *)
Fixpoint stored_messages (n : nat) (now : Date) (ms : list Message) : list MessageDoc :=
  match ms with
  | [] => []
  | m :: ms' =>
      mkMessageDoc (default (pretty n) (msg_id m)) (msg m) (msgFrom m)
                   (Some (default now (msgDateTime m)))
                   (Some (default direct (msg_type m)))
      :: stored_messages (S n) now ms'
  end.

(** The world after the message loop of [saveChat] has stored [ms]. *)
Definition after_messages (ms : list Message) (w : World) : World :=
  mkWorld (users w)
          (messageColl w ++ stored_messages (next_oid w) (clock w) ms)
          (chatColl w)
          (next_oid w + length ms)
          (clock w)
          (drop (length ms) (faults w))
          (oplog w ++ replicate (length ms) MessageCreate)
          (outbox w).

(** The same world at another time. *)
Definition set_clock (now : Date) (w : World) : World :=
  mkWorld (users w) (messageColl w) (chatColl w) (next_oid w) now (faults w) (oplog w)
          (outbox w).

(** ** Socket rooms *)

(** The handlers the controller registers on a connection, acting on the
    set of rooms the connection is in: [conn.join(chatId)] on 'joinChat',
    and on 'leaveChat' [conn.leave(chatId)] only [if (chatId)]. *)
Definition joinChat (chatId : string) (rooms : gset string) : gset string :=
  {[chatId]} ∪ rooms.

Definition leaveChat (chatId : option string) (rooms : gset string) : gset string :=
  if truthy chatId then rooms ∖ {[default "" chatId]} else rooms.

(** [socket.to(room).emit(...)] reaches the connections that are in [room]. *)
Definition receives (rooms : gset string) (e : Emit) : bool :=
  bool_decide (em_room e ∈ rooms).

End Server.

(** * Sample data *)

Module Examples.
Import Server.

Definition registry : gmap string User :=
  <["alice" := mkUser "alice"]> (<["bob" := mkUser "bob"]> ∅).

Definition message0 : MessageDoc :=
  mkMessageDoc "0" (Some "hello") (Some "alice") (Some 1000%Z) (Some direct).

Definition chat1 : ChatDoc :=
  mkChatDoc "1" ["alice"; "bob"] ["0"] 1000%Z 1000%Z.

(** Two users, no chat. *)
Definition world0 : World :=
  mkWorld registry [] [] 0 1000%Z [] [] [].

(** Two users and one chat between them, holding one message. *)
Definition world1 : World :=
  mkWorld registry [message0] [chat1] 2 2000%Z [] [] [].

(** [world1] with a storage that fails at the third call from now. *)
Definition world1_failing_third : World :=
  set_faults [false; false; true] world1.

End Examples.

(** * The client hook [useDirectMessage] *)

Module Client.

Record Message := mkMessage {
  msg : string;
  msgFrom : string
}.

(** The client's [Chat]: [_id] is a string, [participants] are usernames. *)
Record Chat := mkChat {
  chat_id : string;
  participants : list string;
  messages : list Message
}.

Record ChatUpdatePayload := mkChatUpdate {
  chat : Chat;
  type : string
}.

(** The two state variables [handleChatUpdate] writes; it touches none of
    [showCreatePanel], [chatToCreate], [newMessage]. *)
Record HookState := mkHookState {
  chats : list Chat;
  selectedChat : option Chat
}.

Inductive Outcome :=
| Returned (st : HookState)
| Thrown (message : string).

(** [setChats(update)], [setSelectedChat(chat)] *)
Definition setChats (update : list Chat -> list Chat) (st : HookState) : HookState :=
  mkHookState (update (chats st)) (selectedChat st).

Definition setSelectedChat (c : Chat) (st : HookState) : HookState :=
  mkHookState (chats st) (Some c).

(** [participants.flat()]: the entries are strings, none is an array, so
    [flat] copies the list. *)
Definition flat (participants : list string) : list string := participants.

(** [participants.includes(x)] *)
Definition includes (participants : list string) (x : string) : bool :=
  existsb (String.eqb x) participants.

(** [prevChats.some(chat => chat._id === id)] *)
Definition some_id (id : string) (prevChats : list Chat) : bool :=
  existsb (fun c => String.eqb (chat_id c) id) prevChats.

(** [handleChatUpdate], closed over [user.username] and over the
    [selectedChat] of the render that registered it. *)
Definition handleChatUpdate (username : string) (selected : option Chat)
    (chatUpdate : ChatUpdatePayload) (st : HookState) : Outcome :=
  let participants := participants (chat chatUpdate) in
  let participants :=
    if 0 <? length participants then flat participants else participants in
  if String.eqb (type chatUpdate) "created" then
    if includes participants username then
      Returned (setChats (fun prevChats =>
        let oldChatExists := some_id (chat_id (chat chatUpdate)) prevChats in
        if negb oldChatExists then prevChats ++ [chat chatUpdate] else prevChats) st)
    else Returned st
  else if String.eqb (type chatUpdate) "newMessage" then
    let st1 :=
      match selected with
      | Some sel =>
          if String.eqb (chat_id sel) (chat_id (chat chatUpdate))
          then setSelectedChat (chat chatUpdate) st else st
      | None => st
      end in
    Returned (setChats (fun prevChats =>
      map (fun c => if String.eqb (chat_id c) (chat_id (chat chatUpdate))
                    then chat chatUpdate else c) prevChats) st1)
  else Thrown ("Invalid chat update type: " +:+ type chatUpdate).

End Client.

(** * The other handlers of [useDirectMessage] *)

Module ClientHandlers.
Import Client.

(** What awaiting a call of [chatService] gives: the value it resolves
    to, or a rejection, which every handler catches and logs. *)
Inductive Await (A : Type) :=
| Resolved (a : A)
| Rejected.
Arguments Resolved {A} a.
Arguments Rejected {A}.

(** [socket.emit('joinChat', chatID)], [socket.emit('leaveChat', chatID)] *)
Inductive SocketEmit :=
| EmitJoinChat (chatID : string)
| EmitLeaveChat (chatID : option string).

Record OutMessage := mkOutMessage {
  om_msg : string;
  om_msgFrom : string;
  om_msgDateTime : Z
}.

(** The calls of [chatService] a handler makes. *)
Inductive Request :=
| ReqCreateChat (participants : list string)
| ReqSendMessage (message : OutMessage) (chatID : string)
| ReqGetChatById (chatID : string).

(** All the state variables of the hook. *)
Record State := mkState {
  hook : HookState;
  showCreatePanel : bool;
  chatToCreate : string;
  newMessage : string
}.

(** What a handler did: the state it left, the socket events it emitted
    and the service calls it made. *)
Record Run := mkRun {
  run_state : State;
  run_emits : list SocketEmit;
  run_requests : list Request
}.

Definition handleJoinChat (chatID : string) : list SocketEmit :=
  [EmitJoinChat chatID].

Definition handleUserSelect (selectedUsername : string) (st : State) : State :=
  mkState (hook st) (showCreatePanel st) selectedUsername (newMessage st).

(** The cleanup of the effect, closed over the [selectedChat] of the
    render that ran it: [socket.emit('leaveChat', selectedChat?._id)]. *)
Definition effect_cleanup (selected : option Chat) : list SocketEmit :=
  [EmitLeaveChat (chat_id <$> selected)].

Section Handlers.

(** [String.prototype.trim] *)
Variable trim : string -> string.

Definition handleSendMessage (username : string) (now : Z)
    (response : Await unit) (st : State) : Run :=
  match selectedChat (hook st) with
  | None => mkRun st [] []
  | Some selected =>
      if String.eqb (trim (newMessage st)) "" || String.eqb (chat_id selected) ""
      then mkRun st [] []
      else
        let message := mkOutMessage (trim (newMessage st)) username now in
        match response with
        | Resolved _ =>
            mkRun (mkState (hook st) (showCreatePanel st) (chatToCreate st) "")
                  [] [ReqSendMessage message (chat_id selected)]
        | Rejected => mkRun st [] [ReqSendMessage message (chat_id selected)]
        end
  end.

Definition handleChatSelect (chatID : option string)
    (response : Await Chat) (st : State) : Run :=
  match chatID with
  | None =>
      mkRun (mkState (mkHookState (chats (hook st)) None)
                     (showCreatePanel st) (chatToCreate st) (newMessage st)) [] []
  | Some id =>
      if String.eqb id ""
      then mkRun (mkState (mkHookState (chats (hook st)) None)
                          (showCreatePanel st) (chatToCreate st) (newMessage st)) [] []
      else
        match response with
        | Resolved chat =>
            mkRun (mkState (setSelectedChat chat (hook st))
                           (showCreatePanel st) (chatToCreate st) (newMessage st))
                  (handleJoinChat id) [ReqGetChatById id]
        | Rejected => mkRun st [] [ReqGetChatById id]
        end
  end.

Definition handleCreateChat (username : string)
    (response : Await (option Chat)) (st : State) : Run :=
  if String.eqb (trim (chatToCreate st)) "" then mkRun st [] []
  else
    let participants := [username; chatToCreate st] in
    match response with
    | Resolved (Some newChat) =>
        mkRun (mkState
                 (setSelectedChat newChat
                    (setChats (fun prevChats => prevChats ++ [newChat]) (hook st)))
                 false "" (newMessage st))
              (handleJoinChat (chat_id newChat)) [ReqCreateChat participants]
    | Resolved None => mkRun st [] [ReqCreateChat participants]
    | Rejected => mkRun st [] [ReqCreateChat participants]
    end.

End Handlers.

(** An instance of [trim] for ASCII text: it removes the leading and
    trailing characters among space, tab, line feed, vertical tab, form feed
    and carriage return. *)
Definition is_space (a : Ascii.ascii) : bool :=
  let n := Ascii.nat_of_ascii a in
  (n =? 32) || ((9 <=? n) && (n <=? 13)).

Fixpoint trim_start (s : string) : string :=
  match s with
  | EmptyString => EmptyString
  | String a s' => if is_space a then trim_start s' else s
  end.

Fixpoint trim_end (s : string) : string :=
  match s with
  | EmptyString => EmptyString
  | String a s' =>
      match trim_end s' with
      | EmptyString => if is_space a then EmptyString else String a EmptyString
      | t => String a t
      end
  end.

Definition trim_ascii (s : string) : string := trim_end (trim_start s).

End ClientHandlers.

(** * The hook [useNimGamePage] *)

Module NimGame.

(** A JavaScript number, as far as [>=] and [<=] see it: not-a-number, an
    infinity, or a finite value (every finite double is a rational). *)
Inductive JsNumber :=
| NaN
| Infinity (negative : bool)
| Finite (q : QArith_base.Q).

(** [a <= b] *)
Definition js_le (a b : JsNumber) : bool :=
  match a, b with
  | NaN, _ | _, NaN => false
  | Infinity true, _ => true
  | _, Infinity false => true
  | Infinity false, _ => false
  | _, Infinity true => false
  | Finite x, Finite y => QArith_base.Qle_bool x y
  end.

(** [a >= b] *)
Definition js_ge (a b : JsNumber) : bool := js_le b a.

Definition isNaN (n : JsNumber) : bool :=
  match n with
  | NaN => true
  | _ => false
  end.

Definition js_1 : JsNumber := Finite (QArith_base.Qmake 1 1).
Definition js_3 : JsNumber := Finite (QArith_base.Qmake 3 1).

(** [gameState.gameID] and [gameState.state.remainingObjects] *)
Record GameInstance := mkGameInstance {
  gameID : string;
  remainingObjects : JsNumber
}.

(** The payload of 'makeMove':
    [{ gameID, move: { playerID, gameID, move: { numObjects } } }] *)
Record GameMove := mkGameMove {
  gm_gameID : string;
  gm_playerID : string;
  gm_move_gameID : string;
  gm_numObjects : JsNumber
}.

Definition isValidInput (num : JsNumber) : bool :=
  js_ge num js_1 && js_le num js_3.

Definition isValidMove (gameState : GameInstance) (num : JsNumber) : bool :=
  isValidInput num && js_le num (remainingObjects gameState).

(** [handleMakeMove]: the events emitted on the socket and the new value
    of the state variable [move]. *)
Definition handleMakeMove (gameState : GameInstance) (username : string)
    (move : JsNumber) : list GameMove * JsNumber :=
  if negb (isValidMove gameState move) then ([], move)
  else ([mkGameMove (gameID gameState) username (gameID gameState) move], js_1).

Section Input.

(** [Number(value)] *)
Variable Number : string -> JsNumber.

(** [handleInputChange], given [e.target.value]: the new value of [move]. *)
Definition handleInputChange (gameState : GameInstance) (value : string)
    (move : JsNumber) : JsNumber :=
  let parsed := Number value in
  if String.eqb value "" || isNaN parsed || negb (isValidMove gameState parsed)
  then move
  else parsed.

End Input.

End NimGame.

(** * Properties of the chat service and controller *)

Section ServerProperties.

Import Server.

(** ** Storage calls *)

Lemma storage_ok {A} (op : StorageOp) (run : World -> A * World) (w : World) :
  hd false (faults w) = false ->
  storage op run w = (Returned (run (begin_call op w)).1, (run (begin_call op w)).2).
Proof. intros H. unfold storage. rewrite H. by destruct (run _). Qed.

Lemma storage_fault {A} (op : StorageOp) (run : World -> A * World) (w : World) :
  hd false (faults w) = true ->
  storage op run w = (Thrown StorageFault, begin_call op w).
Proof. intros H. unfold storage. by rewrite H. Qed.

Lemma faults_begin_call (op : StorageOp) (w : World) :
  faults (begin_call op w) = tail (faults w).
Proof. done. Qed.

Lemma no_fault_S (n : nat) (w : World) :
  no_fault (S n) w = true ->
  hd false (faults w) = false /\ forall op, no_fault n (begin_call op w) = true.
Proof.
  unfold no_fault. setoid_rewrite faults_begin_call.
  destruct (faults w) as [| b fs]; simpl.
  - intros _. split; [done |]. intros _. by destruct n.
  - intros H. apply andb_true_iff in H as [Hb H]. split; [by destruct b |]. done.
Qed.

Lemma no_fault_0 (w : World) : no_fault 0 w = true.
Proof. done. Qed.

(** ** What a computation leaves alone *)

Lemma preserves_ret {A B} (f : World -> B) (a : A) : preserves f (ret a).
Proof. done. Qed.

Lemma preserves_throw {A B} (f : World -> B) (e : Exn) : preserves f (@throw A e).
Proof. done. Qed.

Lemma preserves_bind {A A' B} (f : World -> B) (m : M A) (k : A -> M A') :
  preserves f m -> (forall a, preserves f (k a)) -> preserves f (bind m k).
Proof.
  intros Hm Hk w. unfold bind. specialize (Hm w).
  destruct (m w) as [[a | e] w1]; simpl in *; [| done].
  by rewrite Hk.
Qed.

Lemma preserves_try_catch {A B} (f : World -> B) (m : M A) (h : Exn -> M A) :
  preserves f m -> (forall e, preserves f (h e)) -> preserves f (try_catch m h).
Proof.
  intros Hm Hh w. unfold try_catch. specialize (Hm w).
  destruct (m w) as [[a | e] w1]; simpl in *; [done |].
  by rewrite Hh.
Qed.

Lemma preserves_storage {A B} (f : World -> B) (op : StorageOp) (run : World -> A * World) :
  (forall w, f (begin_call op w) = f w) -> (forall w, f (run w).2 = f w) ->
  preserves f (storage op run).
Proof.
  intros Hop Hrun w. unfold storage.
  destruct (hd false (faults w)); simpl; [done |].
  specialize (Hrun (begin_call op w)).
  destruct (run (begin_call op w)). simpl in *. by rewrite Hrun.
Qed.

Lemma preserves_new_Date {B} (f : World -> B) : preserves f new_Date.
Proof. done. Qed.

Lemma preserves_send {B} (f : World -> B) (status : nat) (body : Body) :
  preserves f (send status body).
Proof. done. Qed.

Lemma preserves_findByIdAndUpdate {B} (f : World -> B) chatId update :
  (forall op w, f (begin_call op w) = f w) ->
  (forall cs w, f (set_chatColl cs w) = f w) ->
  preserves f (ChatModel_findByIdAndUpdate chatId update).
Proof.
  intros Hop Hset. apply preserves_storage; [done |].
  intros w. simpl. destruct (update_by_id _ _ _) as [[d cs] |]; simpl; done.
Qed.

Ltac preserves_step :=
  first
    [ apply preserves_ret | apply preserves_throw | apply preserves_send
    | apply preserves_new_Date
    | apply preserves_bind | apply preserves_try_catch
    | apply preserves_findByIdAndUpdate; [done | done]
    | apply preserves_storage; [done | done]
    | match goal with
      | |- preserves _ (match ?x with _ => _ end) => destruct x
      | |- preserves _ (if ?b then _ else _) => destruct b
      | |- forall _, _ => intros
      end ].

Ltac solve_preserves := repeat preserves_step.

Lemma saveChat_participants_preserves {B} (f : World -> B) (ps : list string) :
  (forall op w, f (begin_call op w) = f w) ->
  preserves f (saveChat_participants ps).
Proof.
  intros Hop. induction ps as [| p ps IH]; simpl; [apply preserves_ret |].
  unfold UserModel_findById. solve_preserves. exact IH.
Qed.

Lemma saveChat_messages_preserves {B} (f : World -> B) (ms : list Message) (ids : list ObjectId) :
  (forall op w, f (begin_call op w) = f w) ->
  (forall n w, f (set_next_oid n w) = f w) ->
  (forall l w, f (set_messageColl l w) = f w) ->
  preserves f (saveChat_messages ms ids).
Proof.
  intros Hop Hoid Hset. revert ids. induction ms as [| m ms IH]; intros ids; simpl;
    [apply preserves_ret |].
  apply preserves_bind; [apply preserves_new_Date |]. intros now.
  apply preserves_bind; [| intros d; apply IH].
  apply preserves_storage; [done |]. intros w. simpl. by rewrite Hoid, Hset.
Qed.

Lemma saveChat_preserves_outbox (payload : CreateChatPayload) :
  preserves outbox (saveChat payload).
Proof.
  unfold saveChat, ChatModel_create. solve_preserves.
  - by apply saveChat_participants_preserves.
  - by apply saveChat_messages_preserves.
Qed.

Lemma createMessage_preserves_outbox (m : Message) : preserves outbox (createMessage m).
Proof. unfold createMessage, MessageModel_create. solve_preserves. Qed.

Lemma createMessage_preserves_chatColl (m : Message) : preserves chatColl (createMessage m).
Proof. unfold createMessage, MessageModel_create. solve_preserves. Qed.

Lemma addMessageToChat_preserves_outbox (chatId messageId : string) :
  preserves outbox (addMessageToChat chatId messageId).
Proof. unfold addMessageToChat. solve_preserves. Qed.

Lemma addMessageToChat_preserves_messageColl (chatId messageId : string) :
  preserves messageColl (addMessageToChat chatId messageId).
Proof. unfold addMessageToChat. solve_preserves. Qed.

Lemma populateDocument_preserves_outbox (id : option string) :
  preserves outbox (populateDocument id).
Proof. unfold populateDocument. solve_preserves. Qed.

Lemma populateDocument_preserves_messageColl (id : option string) :
  preserves messageColl (populateDocument id).
Proof. unfold populateDocument. solve_preserves. Qed.

Lemma emit_preserves_messageColl (room : string) (payload : ChatUpdatePayload) :
  preserves messageColl (emit room payload).
Proof. done. Qed.

(** ** What returns *)

Lemma returns_try_catch {A} (m : M A) (h : Exn -> M A) :
  (forall e, returns (h e)) -> returns (try_catch m h).
Proof.
  intros Hh w. unfold try_catch.
  destruct (m w) as [[a | e] w1]; [by exists a | apply Hh].
Qed.

Lemma returns_ret {A} (a : A) : returns (ret a).
Proof. intros w. by exists a. Qed.

Lemma returns_run {A} (m : M A) (w : World) :
  returns m -> exists a, m w = (Returned a, (m w).2).
Proof. intros Hm. destruct (Hm w) as [a Ha]. exists a. rewrite <- Ha. by destruct (m w). Qed.

Lemma saveChat_returns (payload : CreateChatPayload) : returns (saveChat payload).
Proof. apply returns_try_catch. intros e. apply returns_ret. Qed.

Lemma createMessage_returns (m : Message) : returns (createMessage m).
Proof. apply returns_try_catch. intros e. apply returns_ret. Qed.

Lemma addMessageToChat_returns (chatId messageId : string) :
  returns (addMessageToChat chatId messageId).
Proof. apply returns_try_catch. intros e. apply returns_ret. Qed.

Lemma populateDocument_returns (id : option string) : returns (populateDocument id).
Proof. apply returns_try_catch. intros e. apply returns_ret. Qed.

(** ** Documents by id *)

Lemma find_has_id_None (chatId : string) (cs : list ChatDoc) :
  Forall (fun d => cd_id d <> chatId) cs -> find (has_id chatId) cs = None.
Proof.
  induction 1 as [| d cs Hd _ IH]; [done |]. simpl. unfold has_id at 1.
  apply String.eqb_neq in Hd. by rewrite Hd.
Qed.

Lemma update_by_id_None (chatId : string) (f : ChatDoc -> ChatDoc) (cs : list ChatDoc) :
  Forall (fun d => cd_id d <> chatId) cs -> update_by_id chatId f cs = None.
Proof.
  induction 1 as [| d cs Hd _ IH]; [done |]. simpl. unfold has_id at 1.
  apply String.eqb_neq in Hd. by rewrite Hd, IH.
Qed.

Lemma update_by_id_split (chatId : string) (f : ChatDoc -> ChatDoc)
    (l1 l2 : list ChatDoc) (d : ChatDoc) :
  Forall (fun x => cd_id x <> chatId) l1 -> cd_id d = chatId ->
  update_by_id chatId f (l1 ++ d :: l2) = Some (f d, l1 ++ f d :: l2).
Proof.
  intros Hl1 Hd. induction Hl1 as [| x l1 Hx _ IH]; simpl.
  - unfold has_id. apply String.eqb_eq in Hd. by rewrite Hd.
  - unfold has_id at 1. apply String.eqb_neq in Hx. by rewrite Hx, IH.
Qed.

Lemma find_has_id_split (chatId : string) (l1 l2 : list ChatDoc) (d : ChatDoc) :
  Forall (fun x => cd_id x <> chatId) l1 -> cd_id d = chatId ->
  find (has_id chatId) (l1 ++ d :: l2) = Some d.
Proof.
  intros Hl1 Hd. induction Hl1 as [| x l1 Hx _ IH]; simpl.
  - unfold has_id. apply String.eqb_eq in Hd. by rewrite Hd.
  - unfold has_id at 1. apply String.eqb_neq in Hx. by rewrite Hx.
Qed.

Lemma includes_spec (x : string) (l : list string) :
  Server.includes x l = true <-> x ∈ l.
Proof.
  unfold Server.includes. rewrite existsb_exists. split.
  - intros (y & Hy & Heq). apply String.eqb_eq in Heq. subst.
    by apply list_elem_of_In.
  - intros Hx. exists x. split; [by apply list_elem_of_In | apply String.eqb_refl].
Qed.

(** ** The service *)

(** A run of [saveChat] with both participants known: two lookups, one
    message created, then the chat. *)
Example saveChat_two_known_participants :
  let r := saveChat (mkPayload ["alice"; "bob"]
                       [mkMessage None (Some "hi") (Some "alice") None None])
             Examples.world0 in
  r.1 = Returned (Doc (mkChat (Some "1") ["alice"; "bob"] ["0"]
                         (Some 1000%Z) (Some 1000%Z)))
  /\ oplog r.2 = [UserFindById "alice"; UserFindById "bob"; MessageCreate; ChatCreate]
  /\ messageColl r.2
     = [mkMessageDoc "0" (Some "hi") (Some "alice") (Some 1000%Z) (Some direct)].
Proof. by vm_compute. Qed.

(** [$addToSet] with a new participant adds it at the end. *)
Example addParticipantToChat_new_participant :
  users Examples.world1 !! "bob" = Some (mkUser "bob")
  /\ (addParticipantToChat "1" "bob" (set_chatColl
        [mkChatDoc "1" ["alice"] [] 1000%Z 1000%Z] Examples.world1)).1
     = Returned (Doc (mkChat (Some "1") ["alice"; "bob"] []
                        (Some 1000%Z) (Some 2000%Z))).
Proof. by vm_compute. Qed.

(** A username list of one known participant finds the chat. *)
Example getChatsByParticipants_one_username :
  (getChatsByParticipants ["alice"] Examples.world1).1
  = Returned [chat_toObject Examples.chat1]
  /\ (getChatsByParticipants ["alice"; "carol"] Examples.world1).1 = Returned [].
Proof. by vm_compute. Qed.

(** C6. When the storage call does not throw: for a chat id that no stored
    chat has, [addMessageToChat] returns the error "Chat not found" and the
    collection is as before; for the id of a stored chat it returns that
    chat with the message id added at the end of its [messages], and in the
    collection only that document changed (its [messages] and its
    [updatedAt]). *)
Theorem addMessageToChat_appends (chatId messageId : string) (w : World) :
  no_fault 1 w = true ->
  (Forall (fun d => cd_id d <> chatId) (chatColl w) ->
   exists w',
     addMessageToChat chatId messageId w = (Returned (ErrorObj "Chat not found"), w')
     /\ chatColl w' = chatColl w /\ messageColl w' = messageColl w)
  /\ (forall l1 d l2,
        chatColl w = l1 ++ d :: l2 ->
        Forall (fun x => cd_id x <> chatId) l1 -> cd_id d = chatId ->
        exists d' w',
          addMessageToChat chatId messageId w = (Returned (Doc (chat_toObject d')), w')
          /\ cd_messages d' = cd_messages d ++ [messageId]
          /\ cd_id d' = cd_id d
          /\ cd_participants d' = cd_participants d
          /\ cd_createdAt d' = cd_createdAt d
          /\ chatColl w' = l1 ++ d' :: l2
          /\ messageColl w' = messageColl w).
Proof.
  intros Hnf. apply no_fault_S in Hnf as [Hhd _].
  unfold addMessageToChat, try_catch, bind, ChatModel_findByIdAndUpdate.
  rewrite storage_ok by done. split.
  - intros Hnone. simpl. rewrite update_by_id_None by done. simpl.
    eexists. split; [reflexivity |]. done.
  - intros l1 d l2 Hsplit Hl1 Hd. simpl. rewrite Hsplit.
    rewrite update_by_id_split by done. simpl.
    eexists _, _. split; [reflexivity |]. done.
Qed.

Lemma addMessageToChat_appends_witness :
  (exists w', addMessageToChat "9" "7" Examples.world1
              = (Returned (ErrorObj "Chat not found"), w'))
  /\ (exists d' w', addMessageToChat "1" "7" Examples.world1
                    = (Returned (Doc (chat_toObject d')), w')
                    /\ cd_messages d' = ["0"; "7"]).
Proof.
  destruct (addMessageToChat_appends "9" "7" Examples.world1 eq_refl) as [Hnone _].
  destruct (addMessageToChat_appends "1" "7" Examples.world1 eq_refl) as [_ Hsome].
  split.
  - destruct Hnone as (w' & Hrun & _).
    + repeat constructor; simpl; discriminate.
    + exists w'. exact Hrun.
  - destruct (Hsome [] Examples.chat1 [] eq_refl (Forall_nil_2 _) eq_refl)
      as (d' & w' & Hrun & Hmsgs & _).
    exists d', w'. split; [exact Hrun | exact Hmsgs].
Defined.

(** C2. For a stored chat and a user id that is already among its
    participants, when the user exists and the two storage calls do not
    throw, [addParticipantToChat] returns the chat with the participant list
    it had: [$addToSet] adds nothing, so the list is equal (hence set-equal)
    to the one before, and no other document changes. *)
Theorem addParticipantToChat_idempotent
    (chatId userId : string) (w : World) (u : User)
    (l1 l2 : list ChatDoc) (d : ChatDoc) :
  no_fault 2 w = true ->
  users w !! userId = Some u ->
  chatColl w = l1 ++ d :: l2 ->
  Forall (fun x => cd_id x <> chatId) l1 -> cd_id d = chatId ->
  userId ∈ cd_participants d ->
  exists d' w',
    addParticipantToChat chatId userId w = (Returned (Doc (chat_toObject d')), w')
    /\ cd_participants d' = cd_participants d
    /\ (forall x, x ∈ cd_participants d' <-> x ∈ cd_participants d)
    /\ cd_id d' = cd_id d
    /\ cd_messages d' = cd_messages d
    /\ chatColl w' = l1 ++ d' :: l2.
Proof.
  intros Hnf Hu Hsplit Hl1 Hd Hin.
  apply no_fault_S in Hnf as [Hhd1 Hnf].
  specialize (Hnf (UserFindById userId)). apply no_fault_S in Hnf as [Hhd2 _].
  unfold addParticipantToChat, try_catch, bind, UserModel_findById,
    ChatModel_findByIdAndUpdate.
  rewrite storage_ok by done. simpl. rewrite Hu.
  rewrite storage_ok by done. simpl. rewrite Hsplit.
  rewrite update_by_id_split by done. simpl.
  unfold addToSet_participants.
  apply includes_spec in Hin. rewrite Hin. simpl.
  eexists _, _. split; [reflexivity |]. done.
Qed.

Lemma addParticipantToChat_idempotent_witness :
  exists d' w',
    addParticipantToChat "1" "bob" Examples.world1 = (Returned (Doc (chat_toObject d')), w')
    /\ cd_participants d' = ["alice"; "bob"].
Proof.
  destruct (addParticipantToChat_idempotent "1" "bob" Examples.world1 (mkUser "bob")
              [] [] Examples.chat1 eq_refl eq_refl eq_refl (Forall_nil_2 _) eq_refl)
    as (d' & w' & Hrun & Hps & _).
  - simpl. apply list_elem_of_further, list_elem_of_here.
  - exists d', w'. split; [exact Hrun | exact Hps].
Defined.

(** C10. When the [username] parameter is missing or empty,
    [getChatsByUserRoute] answers 400 "Invalid body" and the world is the one
    it started in: nothing was added to the log of storage calls. *)
Theorem getChatsByUserRoute_no_username (req : GetChatByParticipantsRequest) (w : World) :
  gc_username req = None \/ gc_username req = Some "" ->
  getChatsByUserRoute req w = (Returned (mkResponse 400 (Text "Invalid body")), w)
  /\ calls_between w (getChatsByUserRoute req w).2 [].
Proof.
  intros H. assert (Hrun : getChatsByUserRoute req w
                           = (Returned (mkResponse 400 (Text "Invalid body")), w)).
  { unfold getChatsByUserRoute. by destruct H as [-> | ->]. }
  split; [done |]. rewrite Hrun. unfold calls_between. simpl. by rewrite app_nil_r.
Qed.

Lemma getChatsByUserRoute_no_username_witness :
  getChatsByUserRoute (mkGetChatsRequest (Some "")) Examples.world1
  = (Returned (mkResponse 400 (Text "Invalid body")), Examples.world1).
Proof.
  apply (getChatsByUserRoute_no_username (mkGetChatsRequest (Some "")) Examples.world1).
  right. reflexivity.
Defined.

(** ** [saveChat] *)

Lemma after_calls_nil (w : World) : after_calls [] w = w.
Proof. destruct w. unfold after_calls, set_oplog, set_faults. simpl. by rewrite app_nil_r. Qed.

Lemma after_calls_one (op : StorageOp) (w : World) :
  after_calls [op] w = begin_call op w.
Proof.
  unfold after_calls, begin_call. simpl. by destruct (faults w).
Qed.

Lemma after_calls_cons (op : StorageOp) (ops : list StorageOp) (w : World) :
  after_calls ops (begin_call op w) = after_calls (op :: ops) w.
Proof.
  unfold after_calls, begin_call, set_oplog, set_faults. simpl.
  rewrite <- app_assoc. simpl. f_equal.
  destruct (faults w); simpl; [by rewrite drop_nil | done].
Qed.

Lemma no_fault_S_eq (n : nat) (op : StorageOp) (w : World) :
  no_fault (S n) w = negb (hd false (faults w)) && no_fault n (begin_call op w).
Proof.
  unfold no_fault. rewrite faults_begin_call.
  destruct (faults w) as [| b fs]; simpl; [by destruct n | done].
Qed.

Lemma no_fault_le (n k : nat) (w : World) :
  no_fault n w = true -> k <= n -> no_fault k w = true.
Proof.
  unfold no_fault. generalize (faults w). intros fs. revert k fs.
  induction n as [| n IH]; intros k fs H Hk.
  - by replace k with 0 by lia.
  - destruct k as [| k]; [done |]. destruct fs as [| b fs]; [done |].
    simpl in *. apply andb_true_iff in H as [Hb H].
    rewrite Hb. simpl. apply (IH k fs H). lia.
Qed.

(** The validation loop makes the lookups of a prefix of the participants
    and nothing else; it ends at the first participant that is not found,
    at a lookup that throws, or after the last participant. *)
Lemma saveChat_participants_run (ps : list string) (w : World) :
  exists k, k <= length ps
    /\ (saveChat_participants ps w).2 = after_calls (UserFindById <$> take k ps) w
    /\ match (saveChat_participants ps w).1 with
       | Returned None =>
           k = length ps /\ Forall (fun p => is_Some (users w !! p)) ps
       | Returned (Some error) =>
           exists l1 q l2, ps = l1 ++ q :: l2
             /\ Forall (fun p => is_Some (users w !! p)) l1
             /\ users w !! q = None
             /\ error = "User not found: " +:+ q
       | Thrown _ => no_fault k w = false
       end.
Proof.
  revert w. induction ps as [| p ps IH]; intros w.
  - exists 0. simpl. rewrite after_calls_nil. done.
  - simpl. unfold bind, UserModel_findById.
    destruct (hd false (faults w)) eqn:Hhd.
    + rewrite storage_fault by done. exists 1. simpl.
      rewrite after_calls_one. split; [lia |]. split; [done |].
      by rewrite (no_fault_S_eq 0 (UserFindById p)), Hhd.
    + rewrite storage_ok by done. simpl.
      destruct (users w !! p) as [u |] eqn:Hu.
      * destruct (IH (begin_call (UserFindById p) w)) as (k & Hk & Hw & Hres).
        exists (S k). split; [simpl; lia |]. simpl.
        rewrite Hw, after_calls_cons. split; [done |].
        destruct (saveChat_participants ps (begin_call (UserFindById p) w)).1
          as [[error |] | e].
        -- destruct Hres as (l1 & q & l2 & -> & Hl1 & Hq & ->).
           exists (p :: l1), q, l2. repeat split; try done.
           constructor; [by rewrite Hu | done].
        -- destruct Hres as [-> Hall]. split; [done |].
           constructor; [by rewrite Hu | done].
        -- by rewrite (no_fault_S_eq k (UserFindById p)), Hres, andb_false_r.
      * exists 1. simpl. rewrite after_calls_one. split; [lia |]. split; [done |].
        by exists [], p, ps.
Qed.

Lemma replicate_snoc {A} (n : nat) (x : A) : x :: replicate n x = replicate n x ++ [x].
Proof. induction n as [| n IH]; [done |]. simpl. by rewrite <- IH. Qed.

(** The message loop only creates messages. *)
Lemma saveChat_messages_run (ms : list Message) (ids : list ObjectId) (w : World) :
  exists k, k <= length ms
    /\ calls_between w (saveChat_messages ms ids w).2 (replicate k MessageCreate)
    /\ chatColl (saveChat_messages ms ids w).2 = chatColl w
    /\ users (saveChat_messages ms ids w).2 = users w
    /\ outbox (saveChat_messages ms ids w).2 = outbox w.
Proof.
  unfold calls_between. revert ids w. induction ms as [| m ms IH]; intros ids w.
  - exists 0. simpl. by rewrite app_nil_r.
  - simpl. unfold bind, new_Date, MessageModel_create.
    destruct (hd false (faults w)) eqn:Hhd.
    + rewrite storage_fault by done. exists 1. simpl. split; [lia | done].
    + rewrite storage_ok by done. simpl.
      match goal with |- context [saveChat_messages ms ?i ?w1] =>
        destruct (IH i w1) as (k & Hk & Hlog & Hchats & Husers & Hout) end.
      exists (S k). split; [lia |].
      rewrite Hlog, Hchats, Husers, Hout. simpl. by rewrite <- app_assoc.
Qed.

Lemma calls_between_after_calls (ops : list StorageOp) (w : World) :
  calls_between w (after_calls ops w) ops.
Proof. done. Qed.

(** C1. [saveChat] never throws.  The storage calls it makes are lookups
    of a prefix of the participants followed by creations; a creation is
    made only after every participant has been looked up and found.  When
    some participant does not exist, no creation is made, the message and
    chat collections are as before, and the result is an error, which is
    "User not found: <participant>" for a missing participant when no
    lookup throws. *)
Theorem saveChat_validates_participants_first (payload : CreateChatPayload) (w : World) :
  exists r w' k creates,
    saveChat payload w = (Returned r, w')
    /\ k <= length (p_participants payload)
    /\ calls_between w w' ((UserFindById <$> take k (p_participants payload)) ++ creates)
    /\ Forall (fun op => is_create op = true) creates
    /\ (creates <> [] ->
        k = length (p_participants payload)
        /\ Forall (fun p => is_Some (users w !! p)) (p_participants payload))
    /\ (Exists (fun p => users w !! p = None) (p_participants payload) ->
        creates = []
        /\ messageColl w' = messageColl w /\ chatColl w' = chatColl w
        /\ exists error, r = ErrorObj error
           /\ (no_fault (length (p_participants payload)) w = true ->
               exists q, q ∈ p_participants payload /\ users w !! q = None
                         /\ error = "User not found: " +:+ q)).
Proof.
  destruct payload as [ps ms]. simpl.
  destruct (saveChat_participants_run ps w) as (k & Hk & Hw & Hres).
  unfold saveChat, try_catch, bind. simpl.
  destruct (saveChat_participants ps w) as [r1 w1]. simpl in Hw, Hres. subst w1.
  assert (Hmissing : forall P : Prop,
             Forall (fun p => is_Some (users w !! p)) ps ->
             Exists (fun p => users w !! p = None) ps -> P).
  { intros P Hall Hex. apply Exists_exists in Hex as (q & Hq & Hnone).
    rewrite Forall_forall in Hall. specialize (Hall q Hq).
    rewrite Hnone in Hall. by destruct Hall. }
  destruct r1 as [[error |] | e].
  - (* a participant was not found *)
    destruct Hres as (l1 & q & l2 & -> & Hl1 & Hq & ->).
    eexists _, _, k, []. split; [reflexivity |]. rewrite app_nil_r.
    repeat split; try done.
    eexists. split; [reflexivity |]. intros _. exists q. split; [set_solver | done].
  - (* every participant was found *)
    destruct Hres as [-> Hall]. rewrite firstn_all.
    set (w1 := after_calls (UserFindById <$> ps) w).
    destruct (saveChat_messages_run ms [] w1) as (j & Hj & Hlog & Hchats & _).
    destruct (saveChat_messages ms [] w1) as [r2 w2]. simpl in Hlog, Hchats.
    unfold calls_between in *.
    destruct r2 as [ids | e]; simpl.
    + unfold ChatModel_create.
      destruct (hd false (faults w2)) eqn:Hhd.
      * rewrite storage_fault by done. simpl.
        eexists _, _, (length ps), (replicate j MessageCreate ++ [ChatCreate]).
        split; [reflexivity |]. rewrite firstn_all. simpl. rewrite Hlog. simpl.
        split; [done |]. split; [by rewrite !app_assoc |]. split.
        { apply Forall_app. split; [by apply Forall_replicate | by constructor]. }
        split; [done |]. intros Hex. by apply (Hmissing _ Hall Hex).
      * rewrite storage_ok by done. simpl.
        eexists _, _, (length ps), (replicate j MessageCreate ++ [ChatCreate]).
        split; [reflexivity |]. rewrite firstn_all. simpl. rewrite Hlog. simpl.
        split; [done |]. split; [by rewrite !app_assoc |]. split.
        { apply Forall_app. split; [by apply Forall_replicate | by constructor]. }
        split; [done |]. intros Hex. by apply (Hmissing _ Hall Hex).
    + eexists _, _, (length ps), (replicate j MessageCreate).
      split; [reflexivity |]. rewrite firstn_all, Hlog. simpl.
      split; [done |]. split; [by rewrite !app_assoc |]. split.
      { by apply Forall_replicate. }
      split; [done |]. intros Hex. by apply (Hmissing _ Hall Hex).
  - (* a lookup threw *)
    eexists _, _, k, []. split; [reflexivity |]. rewrite app_nil_r.
    repeat split; try done.
    eexists. split; [reflexivity |]. intros Hnf.
    rewrite (no_fault_le _ k w Hnf Hk) in Hres. discriminate.
Qed.

Lemma saveChat_validates_participants_first_witness :
  exists q w',
    saveChat (mkPayload ["alice"; "carol"]
                [mkMessage None (Some "hi") (Some "alice") None None]) Examples.world0
    = (Returned (ErrorObj ("User not found: " +:+ q)), w')
    /\ users Examples.world0 !! q = None
    /\ messageColl w' = [] /\ chatColl w' = [].
Proof.
  destruct (saveChat_validates_participants_first
              (mkPayload ["alice"; "carol"]
                 [mkMessage None (Some "hi") (Some "alice") None None]) Examples.world0)
    as (r & w' & k & creates & Hrun & _ & _ & _ & _ & Hmissing).
  destruct Hmissing as (_ & Hms & Hcs & error & -> & Herror).
  - apply Exists_cons_tl, Exists_cons_hd. reflexivity.
  - destruct (Herror eq_refl) as (q & _ & Hq & ->).
    exists q, w'. split; [exact Hrun |]. split; [exact Hq |].
    split; [exact Hms | exact Hcs].
Defined.

(** ** [getChatsByParticipants] *)

Lemma matches_all_subseteq (p : list string) (d : ChatDoc) :
  p <> [] -> (matches_all p d = true <-> p ⊆ cd_participants d).
Proof.
  intros Hp. unfold matches_all. destruct p as [| u p]; [done |].
  rewrite forallb_forall. split.
  - intros H x Hx. apply includes_spec, H. by apply list_elem_of_In.
  - intros H x Hx. apply includes_spec, H. by apply list_elem_of_In.
Qed.

Lemma filter_matches_all (p : list string) (cs : list ChatDoc) :
  p <> [] ->
  filter (fun d => matches_all p d) cs = filter (fun d => p ⊆ cd_participants d) cs.
Proof.
  intros Hp. apply list_filter_iff. intros d.
  rewrite <- (matches_all_subseteq p d Hp). apply Is_true_true.
Qed.

Lemma filter_matches_all_nil (cs : list ChatDoc) :
  filter (fun d => matches_all [] d) cs = [].
Proof.
  induction cs as [| d cs IH]; [done |].
  rewrite filter_cons_False; [done |]. simpl. intros [].
Qed.

(** C4, as the spec has it, fails for the empty username list: every chat
    has a participant set that is a superset of the empty set, but the
    [$all] query matches no document, so the stored chat is not returned
    (the storage call does not fail here). *)
Lemma getChatsByParticipants_empty_list_counterexample :
  no_fault 1 Examples.world1 = true
  /\ superset_chats [] Examples.world1 = [chat_toObject Examples.chat1]
  /\ (getChatsByParticipants [] Examples.world1).1 = Returned []
  /\ (getChatsByParticipants [] Examples.world1).1
     <> Returned (superset_chats [] Examples.world1).
Proof. repeat split; try reflexivity. vm_compute. discriminate. Qed.

(** C4, amended.  [getChatsByParticipants] never throws and never returns
    an error, and it changes no collection.  When the query throws, the
    result is the empty list.  When it does not: for a non-empty username
    list the result is exactly the stored chats whose participants include
    every given username, in storage order; for the empty list it is the
    empty list. *)
Theorem getChatsByParticipants_result (p : list string) (w : World) :
  exists cs w',
    getChatsByParticipants p w = (Returned cs, w')
    /\ chatColl w' = chatColl w /\ messageColl w' = messageColl w
    /\ calls_between w w' [ChatFind p]
    /\ (hd false (faults w) = true -> cs = [])
    /\ (p = [] -> cs = [])
    /\ (hd false (faults w) = false -> p <> [] -> cs = superset_chats p w).
Proof.
  unfold getChatsByParticipants, try_catch, bind, ChatModel_find_all.
  destruct (hd false (faults w)) eqn:Hhd.
  - rewrite storage_fault by done. simpl.
    eexists _, _. split; [reflexivity |]. done.
  - rewrite storage_ok by done. simpl.
    eexists _, _. split; [reflexivity |]. repeat split; try done.
    + intros ->. by rewrite filter_matches_all_nil.
    + intros _ Hp. unfold superset_chats. by rewrite filter_matches_all.
Qed.

Lemma getChatsByParticipants_result_witness :
  exists cs w',
    getChatsByParticipants ["bob"] Examples.world1 = (Returned cs, w')
    /\ cs = superset_chats ["bob"] Examples.world1.
Proof.
  destruct (getChatsByParticipants_result ["bob"] Examples.world1)
    as (cs & w' & Hrun & _ & _ & _ & _ & _ & Hcs).
  exists cs, w'. split; [exact Hrun |]. apply Hcs; [reflexivity | discriminate].
Defined.

(** ** [createMessage] and the message the route builds *)

Lemma try_catch_bind_run {A B} (m : M A) (k : A -> M B) (h : Exn -> M B)
    (w w1 : World) (a : A) :
  m w = (Returned a, w1) -> try_catch (bind m k) h w = try_catch (k a) h w1.
Proof. intros Hm. unfold try_catch, bind. by rewrite Hm. Qed.

(** The document [MessageModel.create] stores for [m] in world [w]. *)
Lemma createMessage_run (m : Message) (w : World) :
  hd false (faults w) = false ->
  createMessage m w
  = (Returned (Doc (message_toObject
        (mkMessageDoc (default (fresh_oid w) (msg_id m))
                      (msg m) (msgFrom m)
                      (Some (default (clock w) (msgDateTime m)))
                      (Some (default direct (msg_type m)))))),
     set_next_oid (S (next_oid w))
       (set_messageColl
          (messageColl w ++ [mkMessageDoc (default (fresh_oid w) (msg_id m))
                               (msg m) (msgFrom m)
                               (Some (default (clock w) (msgDateTime m)))
                               (Some (default direct (msg_type m)))])
          (begin_call MessageCreate w))).
Proof.
  intros Hhd. unfold createMessage, try_catch, bind, MessageModel_create.
  by rewrite storage_ok by done.
Qed.

(** C5.  When the creating storage call does not throw, the service
    function [createMessage] stores exactly one message and returns it: the
    stored message has the [msg] and [msgFrom] of the argument and its
    [_id] if it has one, its [type] or else "direct", and its [msgDateTime]
    or else the current time; the service function itself changes no field
    (the defaults are those of the message model, modelled from the spec)
    and no chat.  For a valid request, the message [addMessageToChatRoute]
    passes on is stored with the request's [msg] and [msgFrom], with type
    "direct", and with the request's [msgDateTime] or else the current
    time. *)
Theorem createMessage_persists_with_defaults (w : World) :
  no_fault 1 w = true ->
  (forall m, exists d w',
      createMessage m w = (Returned (Doc (message_toObject d)), w')
      /\ messageColl w' = messageColl w ++ [d]
      /\ chatColl w' = chatColl w
      /\ md_id d = default (fresh_oid w) (msg_id m)
      /\ md_msg d = msg m /\ md_msgFrom d = msgFrom m
      /\ md_type d = Some (default direct (msg_type m))
      /\ md_msgDateTime d = Some (default (clock w) (msgDateTime m)))
  /\ (forall req, isAddMessageRequestValid req = true ->
      exists d,
        messageColl (addMessageToChatRoute req w).2 = messageColl w ++ [d]
        /\ md_msg d = am_msg req /\ md_msgFrom d = am_msgFrom req
        /\ md_type d = Some direct
        /\ md_msgDateTime d = Some (default (clock w) (am_msgDateTime req))).
Proof.
  intros Hnf. apply no_fault_S in Hnf as [Hhd _]. split.
  - intros m. eexists _, _. split; [by apply createMessage_run |]. done.
  - intros req Hvalid. unfold addMessageToChatRoute. rewrite Hvalid. simpl.
    unfold bind at 1. simpl.
    erewrite try_catch_bind_run by (by apply createMessage_run).
    cbv beta.
    match goal with |- context [try_catch ?m ?h ?w1] =>
      assert (Hpres : preserves messageColl (try_catch m h)) end.
    { pose proof addMessageToChat_preserves_messageColl.
      pose proof populateDocument_preserves_messageColl.
      pose proof emit_preserves_messageColl.
      solve_preserves; done. }
    unfold preserves in Hpres.
    eexists. split; [rewrite Hpres; simpl; reflexivity |]. done.
Qed.

Lemma createMessage_persists_with_defaults_witness :
  exists d w',
    createMessage (mkMessage None (Some "hi") (Some "alice") None None) Examples.world1
    = (Returned (Doc (message_toObject d)), w')
    /\ messageColl w' = [Examples.message0; d]
    /\ md_msg d = Some "hi"
    /\ md_type d = Some direct /\ md_msgDateTime d = Some 2000%Z.
Proof.
  destruct (createMessage_persists_with_defaults Examples.world1 eq_refl) as [Hservice _].
  destruct (Hservice (mkMessage None (Some "hi") (Some "alice") None None))
    as (d & w' & Hrun & Hcoll & _ & _ & Hmsg & _ & Htype & Hdate).
  exists d, w'. split; [exact Hrun |]. split; [exact Hcoll |].
  split; [exact Hmsg |]. split; [exact Htype | exact Hdate].
Defined.

(** ** The routes *)

Lemma addMessageToChat_run_found (chatId messageId : string) (w : World)
    (l1 l2 : list ChatDoc) (d : ChatDoc) :
  hd false (faults w) = false ->
  chatColl w = l1 ++ d :: l2 ->
  Forall (fun x => cd_id x <> chatId) l1 -> cd_id d = chatId ->
  addMessageToChat chatId messageId w
  = (Returned (Doc (chat_toObject
        (mkChatDoc (cd_id d) (cd_participants d) (cd_messages d ++ [messageId])
                   (cd_createdAt d) (clock w)))),
     set_chatColl
       (l1 ++ mkChatDoc (cd_id d) (cd_participants d) (cd_messages d ++ [messageId])
                        (cd_createdAt d) (clock w) :: l2)
       (begin_call (ChatFindByIdAndUpdate chatId) w)).
Proof.
  intros Hhd Hsplit Hl1 Hd.
  unfold addMessageToChat, try_catch, bind, ChatModel_findByIdAndUpdate.
  rewrite storage_ok by done. simpl. rewrite Hsplit.
  by rewrite update_by_id_split by done.
Qed.

Lemma populateDocument_run_fault (id : string) (w : World) :
  hd false (faults w) = true ->
  populateDocument (Some id) w
  = (Returned (ErrorObj
       "Error when fetching and populating a document: storage call failed"),
     begin_call (ChatPopulate id) w).
Proof.
  intros Hhd. unfold populateDocument, try_catch, bind.
  by rewrite storage_fault by done.
Qed.

Lemma forEach_emit_run (ps : list string) (payload : ChatUpdatePayload) (w : World) :
  forEach ps (fun participant => emit participant payload) w
  = (Returned tt,
     set_outbox (outbox w ++ ((fun participant => mkEmit participant payload) <$> ps)) w).
Proof.
  revert w. induction ps as [| p ps IH]; intros w; simpl.
  - unfold ret, set_outbox. rewrite app_nil_r. by destruct w.
  - unfold bind, emit. rewrite IH. unfold set_outbox. simpl.
    by rewrite <- app_assoc.
Qed.

Lemma saveChat_Doc_participants (payload : CreateChatPayload) (w w1 : World) (c : Chat) :
  saveChat payload w = (Returned (Doc c), w1) ->
  participants c = p_participants payload.
Proof.
  unfold saveChat, try_catch, bind.
  destruct (saveChat_participants _ w) as [[[error |] | e] w2]; simpl; try discriminate.
  destruct (saveChat_messages _ _ w2) as [[ids | e] w3]; simpl; try discriminate.
  unfold ChatModel_create, storage.
  destruct (hd false (faults w3)); simpl; try discriminate.
  by intros [= <- <-].
Qed.

(** C7 fails on the code.  For a valid request, when message creation
    and chat update succeed and [populateDocument] returns an error object,
    the route, which does not test it, emits the error object as a
    "newMessage" event on the chat's room and sends it with status 200. *)
Theorem addMessageToChatRoute_enrichment_error_sent_with_200
    (req : AddMessageRequestToChat) (w w1 w2 w3 : World)
    (messageResult : Message) (messageId : ObjectId)
    (chatResult : Chat) (id : ObjectId) (error : string) :
  isAddMessageRequestValid req = true ->
  createMessage (addMessage_message req (clock w)) w
  = (Returned (Doc messageResult), w1) ->
  msg_id messageResult = Some messageId ->
  addMessageToChat (am_chatId req) messageId w1 = (Returned (Doc chatResult), w2) ->
  chat_id chatResult = Some id ->
  populateDocument (Some id) w2 = (Returned (ErrorObj error), w3) ->
  addMessageToChatRoute req w
  = (Returned (mkResponse 200 (Populated (ErrorObj error))),
     set_outbox
       (outbox w3 ++ [mkEmit (am_chatId req) (mkChatUpdate (ErrorObj error) "newMessage")])
       w3).
Proof.
  intros Hvalid Hmessage HmessageId Hchat Hid Henrich.
  unfold addMessageToChatRoute. rewrite Hvalid. simpl.
  unfold bind at 1. simpl.
  rewrite (try_catch_bind_run _ _ _ _ _ _ Hmessage). cbv beta. rewrite HmessageId.
  rewrite (try_catch_bind_run _ _ _ _ _ _ Hchat). cbv beta. rewrite Hid.
  by rewrite (try_catch_bind_run _ _ _ _ _ _ Henrich).
Qed.

Lemma addMessageToChatRoute_enrichment_error_sent_with_200_witness :
  (addMessageToChatRoute (mkAddMessageRequest "1" (Some "yo") (Some "bob") None)
     Examples.world1_failing_third).1
  = Returned (mkResponse 200 (Populated (ErrorObj
      "Error when fetching and populating a document: storage call failed"))).
Proof.
  erewrite (addMessageToChatRoute_enrichment_error_sent_with_200
              (mkAddMessageRequest "1" (Some "yo") (Some "bob") None)
              Examples.world1_failing_third).
  - reflexivity.
  - reflexivity.
  - vm_compute. reflexivity.
  - reflexivity.
  - vm_compute. reflexivity.
  - reflexivity.
  - vm_compute. reflexivity.
Defined.

(** The hypotheses of the last theorem are met whenever the chat is
    stored, the first two storage calls succeed and the third, the one of
    the enrichment, throws; the message has then been stored. *)
Lemma addMessageToChatRoute_storage_fault_in_enrichment
    (req : AddMessageRequestToChat) (w : World)
    (l1 l2 : list ChatDoc) (d : ChatDoc) (rest : list bool) :
  isAddMessageRequestValid req = true ->
  faults w = false :: false :: true :: rest ->
  chatColl w = l1 ++ d :: l2 ->
  Forall (fun x => cd_id x <> am_chatId req) l1 -> cd_id d = am_chatId req ->
  exists error m w',
    addMessageToChatRoute req w
    = (Returned (mkResponse 200 (Populated (ErrorObj error))), w')
    /\ emitted_between w w'
         [mkEmit (am_chatId req) (mkChatUpdate (ErrorObj error) "newMessage")]
    /\ messageColl w' = messageColl w ++ [m].
Proof.
  intros Hvalid Hf Hsplit Hl1 Hd.
  unfold addMessageToChatRoute. rewrite Hvalid. simpl.
  unfold bind at 1. simpl.
  erewrite try_catch_bind_run by (apply createMessage_run; by rewrite Hf).
  cbv beta. simpl.
  erewrite try_catch_bind_run
    by (apply (addMessageToChat_run_found _ _ _ l1 l2 d);
        [simpl; by rewrite Hf | done | done | done]).
  cbv beta. simpl.
  erewrite try_catch_bind_run
    by (apply populateDocument_run_fault; simpl; by rewrite Hf).
  cbv beta. unfold try_catch, bind, emit, send, ret. simpl.
  eexists _, _, _. split; [reflexivity |]. split; [done |]. simpl. reflexivity.
Qed.

(** The sibling route tests the enrichment result: under the same kind of
    failure [createChatRoute] answers 500 and emits nothing. *)
Example createChatRoute_enrichment_error_500 :
  let req := mkCreateChatRequest (Some ["alice"; "bob"]) (Some []) in
  let w := set_faults [false; false; false; true] Examples.world0 in
  status <$> (match (createChatRoute req w).1 with
              | Returned resp => Some resp
              | Thrown _ => None
              end) = Some 500
  /\ outbox (createChatRoute req w).2 = [].
Proof. by vm_compute. Qed.

Lemma emitted_between_nil (w w' : World) :
  outbox w' = outbox w -> emitted_between w w' [].
Proof. intros H. unfold emitted_between. by rewrite app_nil_r. Qed.

(** C3.  Whenever [createChatRoute] answers 200, its body is the enriched
    chat and the events it emitted are exactly one "created" [chatUpdate]
    per entry of the request's participant list, in order, each addressed to
    the room named by that participant and carrying the enriched chat; so
    no event goes to a room that is not a participant's, the chat's own room
    included.  Whenever [addMessageToChatRoute] answers 200, it emitted
    exactly one event: a "newMessage" [chatUpdate] addressed to the room
    named by the request's chat id, carrying what it sent as the body.  With
    any other status neither route emitted anything. *)
Theorem chatUpdate_events_of_routes :
  (forall req w resp w',
      createChatRoute req w = (Returned resp, w') ->
      (status resp = 200 ->
       exists ps en,
         cc_participants req = Some ps
         /\ body resp = Populated (Doc en)
         /\ emitted_between w w'
              ((fun participant =>
                  mkEmit participant (mkChatUpdate (Doc en) "created")) <$> ps)
         /\ (forall room e, room ∉ ps -> emitted_between w w' e ->
             Forall (fun x => em_room x <> room) e))
      /\ (status resp <> 200 -> emitted_between w w' []))
  /\ (forall req w resp w',
        addMessageToChatRoute req w = (Returned resp, w') ->
        (status resp = 200 ->
         exists payload,
           body resp = Populated payload
           /\ emitted_between w w'
                [mkEmit (am_chatId req) (mkChatUpdate payload "newMessage")])
        /\ (status resp <> 200 -> emitted_between w w' [])).
Proof.
  split.
  - intros req w resp w' Hrun. unfold createChatRoute in Hrun.
    destruct (isCreateChatRequestValid req) eqn:Hvalid; simpl in Hrun;
      [| injection Hrun as <- <-; simpl; split; [done | intros _; by apply emitted_between_nil]].
    destruct (returns_run _ w (saveChat_returns (createChat_payload req))) as [r1 Hr1].
    pose proof (saveChat_preserves_outbox (createChat_payload req) w) as Hout1.
    rewrite (try_catch_bind_run _ _ _ _ _ _ Hr1) in Hrun.
    destruct r1 as [c | error];
      [| injection Hrun as <- <-; simpl; split; [done | intros _; by apply emitted_between_nil]].
    apply saveChat_Doc_participants in Hr1 as Hps.
    set (w1 := (saveChat (createChat_payload req) w).2) in *.
    destruct (returns_run _ w1 (populateDocument_returns (chat_id c))) as [r2 Hr2].
    pose proof (populateDocument_preserves_outbox (chat_id c) w1) as Hout2.
    rewrite (try_catch_bind_run _ _ _ _ _ _ Hr2) in Hrun.
    destruct r2 as [en | error].
    + unfold try_catch, bind in Hrun. rewrite forEach_emit_run in Hrun.
      simpl in Hrun. injection Hrun as <- <-. simpl. split; [| done].
      intros _. unfold isCreateChatRequestValid in Hvalid.
      destruct (cc_participants req) as [ps |] eqn:Hreq; [| done].
      simpl in Hps. rewrite Hreq in Hps. simpl in Hps. exists ps, en. split; [done |]. split; [done |].
      assert (Hem : emitted_between w
                (set_outbox (outbox (populateDocument (chat_id c) w1).2 ++
                   ((fun participant =>
                       mkEmit participant (mkChatUpdate (Doc en) "created")) <$> participants c))
                   (populateDocument (chat_id c) w1).2)
                ((fun participant =>
                    mkEmit participant (mkChatUpdate (Doc en) "created")) <$> ps)).
      { unfold emitted_between. simpl. by rewrite Hout2, Hout1, Hps. }
      split; [exact Hem |].
      intros room e Hroom He. unfold emitted_between in Hem, He.
      rewrite Hem in He. apply app_inv_head in He. subst e.
      apply Forall_fmap, Forall_forall. intros p Hp. simpl. by intros ->.
    + unfold try_catch, throw, send, ret in Hrun. injection Hrun as <- <-. simpl.
      split; [done |]. intros _. apply emitted_between_nil. by rewrite Hout2, Hout1.
  - intros req w resp w' Hrun. unfold addMessageToChatRoute in Hrun.
    destruct (isAddMessageRequestValid req) eqn:Hvalid; simpl in Hrun;
      [| injection Hrun as <- <-; simpl; split; [done | intros _; by apply emitted_between_nil]].
    unfold bind at 1 in Hrun. simpl in Hrun.
    set (message := addMessage_message req (clock w)) in *.
    destruct (returns_run _ w (createMessage_returns message)) as [r1 Hr1].
    pose proof (createMessage_preserves_outbox message w) as Hout1.
    rewrite (try_catch_bind_run _ _ _ _ _ _ Hr1) in Hrun.
    set (w1 := (createMessage message w).2) in *.
    destruct r1 as [messageResult | error];
      [| injection Hrun as <- <-; simpl; split;
         [done | intros _; by apply emitted_between_nil]].
    destruct (msg_id messageResult) as [messageId |];
      [| injection Hrun as <- <-; simpl; split;
         [done | intros _; by apply emitted_between_nil]].
    destruct (returns_run _ w1 (addMessageToChat_returns (am_chatId req) messageId))
      as [r2 Hr2].
    pose proof (addMessageToChat_preserves_outbox (am_chatId req) messageId w1) as Hout2.
    rewrite (try_catch_bind_run _ _ _ _ _ _ Hr2) in Hrun.
    set (w2 := (addMessageToChat (am_chatId req) messageId w1).2) in *.
    destruct r2 as [chatResult | error];
      [| injection Hrun as <- <-; simpl; split;
         [done | intros _; apply emitted_between_nil; by rewrite Hout2, Hout1]].
    destruct (chat_id chatResult) as [id |];
      [| injection Hrun as <- <-; simpl; split;
         [done | intros _; apply emitted_between_nil; by rewrite Hout2, Hout1]].
    destruct (returns_run _ w2 (populateDocument_returns (Some id))) as [r3 Hr3].
    pose proof (populateDocument_preserves_outbox (Some id) w2) as Hout3.
    rewrite (try_catch_bind_run _ _ _ _ _ _ Hr3) in Hrun.
    unfold try_catch, bind, emit, send, ret in Hrun. injection Hrun as <- <-. simpl.
    split; [| done]. intros _. exists r3. split; [done |].
    unfold emitted_between. simpl. by rewrite Hout3, Hout2, Hout1.
Qed.

Lemma chatUpdate_events_of_routes_witness :
  (exists en w',
      createChatRoute (mkCreateChatRequest (Some ["alice"; "bob"]) (Some [])) Examples.world0
      = (Returned (mkResponse 200 (Populated (Doc en))), w')
      /\ outbox w' = [mkEmit "alice" (mkChatUpdate (Doc en) "created");
                      mkEmit "bob" (mkChatUpdate (Doc en) "created")])
  /\ (exists payload w',
        addMessageToChatRoute (mkAddMessageRequest "1" (Some "yo") (Some "bob") None)
          Examples.world1
        = (Returned (mkResponse 200 (Populated payload)), w')
        /\ outbox w' = [mkEmit "1" (mkChatUpdate payload "newMessage")]).
Proof.
  destruct chatUpdate_events_of_routes as [Hcreate Hadd]. split.
  - destruct (createChatRoute (mkCreateChatRequest (Some ["alice"; "bob"]) (Some []))
                Examples.world0) as [[resp | e] w'] eqn:Hrun;
      [| vm_compute in Hrun; discriminate].
    assert (Hstatus : status resp = 200).
    { vm_compute in Hrun. by inversion Hrun. }
    destruct (Hcreate _ _ _ _ Hrun) as [Hok _].
    destruct (Hok Hstatus) as (ps & en & Hps & Hbody & Hem & _).
    injection Hps as <-. exists en, w'.
    destruct resp as [st bd]. simpl in *. subst. split; [reflexivity | exact Hem].
  - destruct (addMessageToChatRoute (mkAddMessageRequest "1" (Some "yo") (Some "bob") None)
                Examples.world1) as [[resp | e] w'] eqn:Hrun;
      [| vm_compute in Hrun; discriminate].
    assert (Hstatus : status resp = 200).
    { vm_compute in Hrun. by inversion Hrun. }
    destruct (Hadd _ _ _ _ Hrun) as [Hok _].
    destruct (Hok Hstatus) as (payload & Hbody & Hem).
    exists payload, w'.
    destruct resp as [st bd]. simpl in *. subst. split; [reflexivity | exact Hem].
Defined.

(** * Further properties of the chat service *)

Lemma no_fault_2 (w : World) :
  no_fault 2 w = true ->
  hd false (faults w) = false /\ hd false (tail (faults w)) = false.
Proof.
  unfold no_fault. destruct (faults w) as [| a [| b fs]]; simpl; try done.
  - destruct a; done.
  - destruct a, b; done.
Qed.

Lemma getChat_run_found (chatId : string) (w : World)
    (l1 l2 : list ChatDoc) (d : ChatDoc) :
  hd false (faults w) = false ->
  chatColl w = l1 ++ d :: l2 ->
  Forall (fun x => cd_id x <> chatId) l1 -> cd_id d = chatId ->
  getChat chatId w = (Returned (Doc (chat_toObject d)), begin_call (ChatFindById chatId) w).
Proof.
  intros Hhd Hsplit Hl1 Hd. unfold getChat, try_catch, bind, ChatModel_findById.
  rewrite storage_ok by done. simpl. rewrite Hsplit.
  by rewrite find_has_id_split by done.
Qed.

(** X1. [getChat] never throws and writes nothing: it makes one lookup and
    leaves every collection as it was.  When the lookup throws the result is
    the error "Failed to get chat"; otherwise it is "Chat not found" for an
    id no stored chat has, and the stored chat for the id of a stored
    chat. *)
Theorem getChat_reads (chatId : string) (w : World) :
  exists r w',
    getChat chatId w = (Returned r, w')
    /\ calls_between w w' [ChatFindById chatId]
    /\ chatColl w' = chatColl w /\ messageColl w' = messageColl w
    /\ users w' = users w /\ outbox w' = outbox w
    /\ (hd false (faults w) = true -> r = ErrorObj "Failed to get chat")
    /\ (hd false (faults w) = false ->
        Forall (fun d => cd_id d <> chatId) (chatColl w) ->
        r = ErrorObj "Chat not found")
    /\ (hd false (faults w) = false ->
        forall l1 d l2,
          chatColl w = l1 ++ d :: l2 ->
          Forall (fun x => cd_id x <> chatId) l1 -> cd_id d = chatId ->
          r = Doc (chat_toObject d)).
Proof.
  unfold getChat, try_catch, bind, ChatModel_findById.
  destruct (hd false (faults w)) eqn:Hhd.
  - rewrite storage_fault by done. simpl.
    eexists _, _. split; [reflexivity |]. done.
  - rewrite storage_ok by done. simpl.
    destruct (find (has_id chatId) (chatColl w)) as [d |] eqn:Hfind; simpl.
    + eexists _, _. split; [reflexivity |]. repeat split; try done.
      * intros _ Hnone. by rewrite find_has_id_None in Hfind.
      * intros _ l1 d' l2 Hsplit Hl1 Hd. rewrite Hsplit in Hfind.
        rewrite find_has_id_split in Hfind by done. congruence.
    + eexists _, _. split; [reflexivity |]. repeat split; try done.
      intros _ l1 d' l2 Hsplit Hl1 Hd. rewrite Hsplit in Hfind.
      by rewrite find_has_id_split in Hfind.
Qed.

Lemma getChat_reads_witness :
  exists w', getChat "1" Examples.world1 = (Returned (Doc (chat_toObject Examples.chat1)), w').
Proof.
  destruct (getChat_reads "1" Examples.world1)
    as (r & w' & Hrun & _ & _ & _ & _ & _ & _ & _ & Hfound).
  exists w'. rewrite Hrun.
  by rewrite (Hfound eq_refl [] Examples.chat1 [] eq_refl (Forall_nil_2 _) eq_refl).
Defined.

(** X2. A stored message id can be read back: after [addMessageToChat]
    succeeds on a stored chat, [getChat] on the same id returns the very chat
    that [addMessageToChat] returned, and its [messages] end with the
    message id. *)
Theorem addMessageToChat_then_getChat
    (chatId messageId : string) (w : World)
    (l1 l2 : list ChatDoc) (d : ChatDoc) :
  no_fault 2 w = true ->
  chatColl w = l1 ++ d :: l2 ->
  Forall (fun x => cd_id x <> chatId) l1 -> cd_id d = chatId ->
  exists c w1,
    addMessageToChat chatId messageId w = (Returned (Doc c), w1)
    /\ (getChat chatId w1).1 = Returned (Doc c)
    /\ last (messages c) = Some messageId.
Proof.
  intros Hnf Hsplit Hl1 Hd. apply no_fault_2 in Hnf as [Hhd1 Hhd2].
  eexists _, _. split; [by apply (addMessageToChat_run_found _ _ _ l1 l2 d) |].
  split.
  - erewrite (getChat_run_found chatId _ l1 l2); [done | done | done | done | done].
  - simpl. apply last_snoc.
Qed.

Lemma addMessageToChat_then_getChat_witness :
  exists c w1,
    addMessageToChat "1" "7" Examples.world1 = (Returned (Doc c), w1)
    /\ (getChat "1" w1).1 = Returned (Doc c)
    /\ last (messages c) = Some "7".
Proof.
  exact (addMessageToChat_then_getChat "1" "7" Examples.world1 [] [] Examples.chat1
           eq_refl eq_refl (Forall_nil_2 _) eq_refl).
Defined.

(** X3. Appends compose in call order and keep duplicates: two successive
    calls of [addMessageToChat] on a stored chat leave its [messages] as the
    old list followed by the first and then the second message id, also when
    the two ids are the same. *)
Theorem addMessageToChat_twice
    (chatId m1 m2 : string) (w : World)
    (l1 l2 : list ChatDoc) (d : ChatDoc) :
  no_fault 2 w = true ->
  chatColl w = l1 ++ d :: l2 ->
  Forall (fun x => cd_id x <> chatId) l1 -> cd_id d = chatId ->
  exists c w2,
    addMessageToChat chatId m2 (addMessageToChat chatId m1 w).2 = (Returned (Doc c), w2)
    /\ messages c = cd_messages d ++ [m1; m2]
    /\ participants c = cd_participants d.
Proof.
  intros Hnf Hsplit Hl1 Hd. apply no_fault_2 in Hnf as [Hhd1 Hhd2].
  eexists _, _. split.
  - rewrite (addMessageToChat_run_found _ m1 _ l1 l2 d) by done. simpl.
    apply (addMessageToChat_run_found chatId m2 _ l1 l2); done.
  - simpl. by rewrite <- app_assoc.
Qed.

Lemma addMessageToChat_twice_witness :
  exists c w2,
    addMessageToChat "1" "7" (addMessageToChat "1" "7" Examples.world1).2
    = (Returned (Doc c), w2)
    /\ messages c = ["0"; "7"; "7"].
Proof.
  destruct (addMessageToChat_twice "1" "7" "7" Examples.world1 [] [] Examples.chat1
              eq_refl eq_refl (Forall_nil_2 _) eq_refl) as (c & w2 & Hrun & Hms & _).
  exists c, w2. split; [exact Hrun | exact Hms].
Defined.

Lemma addParticipantToChat_run_found
    (chatId userId : string) (w : World) (u : User)
    (l1 l2 : list ChatDoc) (d : ChatDoc) :
  no_fault 2 w = true ->
  users w !! userId = Some u ->
  chatColl w = l1 ++ d :: l2 ->
  Forall (fun x => cd_id x <> chatId) l1 -> cd_id d = chatId ->
  addParticipantToChat chatId userId w
  = (Returned (Doc (chat_toObject
       (mkChatDoc (cd_id d) (cd_participants (addToSet_participants userId d))
                  (cd_messages d) (cd_createdAt d) (clock w)))),
     set_chatColl
       (l1 ++ mkChatDoc (cd_id d) (cd_participants (addToSet_participants userId d))
                        (cd_messages d) (cd_createdAt d) (clock w) :: l2)
       (begin_call (ChatFindByIdAndUpdate chatId) (begin_call (UserFindById userId) w))).
Proof.
  intros Hnf Hu Hsplit Hl1 Hd. apply no_fault_2 in Hnf as [Hhd1 Hhd2].
  unfold addParticipantToChat, try_catch, bind, UserModel_findById,
    ChatModel_findByIdAndUpdate.
  rewrite storage_ok by done. simpl. rewrite Hu.
  rewrite storage_ok by done. simpl. rewrite Hsplit.
  rewrite update_by_id_split by done. simpl.
  unfold addToSet_participants. by destruct (Server.includes userId (cd_participants d)).
Qed.

(** X4. For an existing user who is not yet a participant of a stored
    chat, [addParticipantToChat] returns the chat with the user id added at
    the end of [participants]; its [messages] are untouched and the rest of
    the collection is as before.  A second call, at whatever time it is
    made, adds nothing more: it returns the chat with the same participants
    and messages, and in the collection only the [updatedAt] stamp of that
    chat is refreshed. *)
Theorem addParticipantToChat_new_participant_appended
    (chatId userId : string) (w : World) (u : User)
    (l1 l2 : list ChatDoc) (d : ChatDoc) :
  no_fault 4 w = true ->
  users w !! userId = Some u ->
  chatColl w = l1 ++ d :: l2 ->
  Forall (fun x => cd_id x <> chatId) l1 -> cd_id d = chatId ->
  userId ∉ cd_participants d ->
  exists d' w1,
    addParticipantToChat chatId userId w = (Returned (Doc (chat_toObject d')), w1)
    /\ cd_participants d' = cd_participants d ++ [userId]
    /\ cd_messages d' = cd_messages d
    /\ chatColl w1 = l1 ++ d' :: l2
    /\ (forall later, exists d'' w2,
          addParticipantToChat chatId userId (set_clock later w1)
          = (Returned (Doc (chat_toObject d'')), w2)
          /\ cd_participants d'' = cd_participants d'
          /\ cd_messages d'' = cd_messages d'
          /\ cd_id d'' = cd_id d'
          /\ cd_createdAt d'' = cd_createdAt d'
          /\ cd_updatedAt d'' = later
          /\ chatColl w2 = l1 ++ d'' :: l2).
Proof.
  intros Hnf Hu Hsplit Hl1 Hd Hnotin.
  assert (Hnf2 : no_fault 2 w = true) by (apply (no_fault_le 4); [done | lia]).
  assert (Hinc : Server.includes userId (cd_participants d) = false).
  { destruct (Server.includes userId (cd_participants d)) eqn:Hinc; [| done].
    by apply includes_spec in Hinc. }
  eexists _, _. split; [by apply (addParticipantToChat_run_found _ _ _ u l1 l2 d) |].
  unfold addToSet_participants. rewrite Hinc. simpl.
  split; [done |]. split; [done |]. split; [done |].
  intros later.
  match goal with |- context [addParticipantToChat _ _ ?w1] =>
    assert (Hrun2 := addParticipantToChat_run_found chatId userId w1 u l1 l2
      (mkChatDoc (cd_id d) (cd_participants d ++ [userId]) (cd_messages d)
                 (cd_createdAt d) (clock w))) end.
  eexists _, _. split.
  - apply Hrun2; try done.
    unfold no_fault in *. simpl.
    destruct (faults w) as [| a [| b fs]]; simpl in *; try done.
    apply andb_true_iff in Hnf as [_ Hnf]. by apply andb_true_iff in Hnf as [_ Hnf].
  - unfold addToSet_participants. simpl.
    assert (Hinc2 : Server.includes userId (cd_participants d ++ [userId]) = true)
      by (apply includes_spec; set_solver).
    rewrite Hinc2. done.
Qed.

Lemma addParticipantToChat_new_participant_appended_witness :
  exists d' w1,
    addParticipantToChat "1" "bob"
      (set_chatColl [mkChatDoc "1" ["alice"] [] 1000%Z 1000%Z] Examples.world1)
    = (Returned (Doc (chat_toObject d')), w1)
    /\ cd_participants d' = ["alice"; "bob"]
    /\ exists d'' w2,
         addParticipantToChat "1" "bob" (set_clock 3000%Z w1)
         = (Returned (Doc (chat_toObject d'')), w2)
         /\ cd_participants d'' = ["alice"; "bob"]
         /\ cd_updatedAt d'' = 3000%Z.
Proof.
  destruct (addParticipantToChat_new_participant_appended "1" "bob"
              (set_chatColl [mkChatDoc "1" ["alice"] [] 1000%Z 1000%Z] Examples.world1)
              (mkUser "bob") [] [] (mkChatDoc "1" ["alice"] [] 1000%Z 1000%Z)
              eq_refl eq_refl eq_refl (Forall_nil_2 _) eq_refl)
    as (d' & w1 & Hrun & Hps & _ & _ & Hagain).
  - simpl. intros Hin. apply list_elem_of_singleton in Hin. discriminate.
  - exists d', w1. split; [exact Hrun |]. split; [exact Hps |].
    destruct (Hagain 3000%Z) as (d'' & w2 & Hrun2 & Hps2 & _ & _ & _ & Hstamp & _).
    exists d'', w2. split; [exact Hrun2 |]. split; [| exact Hstamp].
    rewrite Hps2. exact Hps.
Defined.

(** X5. The failures of [addParticipantToChat].  It never throws.  For a
    user id that is not in the user collection (the lookup not throwing) the
    result is "User not found: <id>", only that lookup was made and no chat
    changed.  For an existing user and a chat id no stored chat has (no call
    throwing) the result is "Failed to add participant to chat", the same
    text as for a storage failure, and no chat changed. *)
Theorem addParticipantToChat_failures (chatId userId : string) (w : World) :
  exists r w',
    addParticipantToChat chatId userId w = (Returned r, w')
    /\ (users w !! userId = None -> no_fault 1 w = true ->
        r = ErrorObj ("User not found: " +:+ userId)
        /\ calls_between w w' [UserFindById userId]
        /\ chatColl w' = chatColl w)
    /\ (is_Some (users w !! userId) -> no_fault 2 w = true ->
        Forall (fun d => cd_id d <> chatId) (chatColl w) ->
        r = ErrorObj "Failed to add participant to chat"
        /\ chatColl w' = chatColl w)
    /\ (hd false (faults w) = true ->
        r = ErrorObj "Failed to add participant to chat"
        /\ chatColl w' = chatColl w).
Proof.
  unfold addParticipantToChat, try_catch, bind, UserModel_findById,
    ChatModel_findByIdAndUpdate.
  destruct (hd false (faults w)) eqn:Hhd1.
  - rewrite storage_fault by done. simpl.
    eexists _, _. split; [reflexivity |]. split; [| split; [| done]].
    + intros _ Hnf. apply no_fault_S in Hnf as [Hnf _]. congruence.
    + intros _ Hnf. apply no_fault_2 in Hnf as [Hnf _]. congruence.
  - rewrite storage_ok by done. simpl.
    destruct (users w !! userId) as [u |] eqn:Hu.
    + destruct (hd false (tail (faults w))) eqn:Hhd2.
      * rewrite storage_fault by done. simpl.
        eexists _, _. split; [reflexivity |]. split; [done |]. split; [| done].
        intros _ Hnf. apply no_fault_2 in Hnf as [_ Hnf]. congruence.
      * rewrite storage_ok by done. simpl.
        destruct (update_by_id chatId _ (chatColl w)) as [[d' cs'] |] eqn:Hupd; simpl.
        -- eexists _, _. split; [reflexivity |]. split; [done |]. split; [| done].
           intros _ _ Hnone. by rewrite update_by_id_None in Hupd.
        -- eexists _, _. split; [reflexivity |]. done.
    + eexists _, _. split; [reflexivity |]. split; [done |]. split; [| done].
      intros [u Hu']. done.
Qed.

Lemma addParticipantToChat_failures_witness :
  (addParticipantToChat "1" "carol" Examples.world1).1
  = Returned (ErrorObj "User not found: carol")
  /\ (addParticipantToChat "9" "bob" Examples.world1).1
     = Returned (ErrorObj "Failed to add participant to chat").
Proof.
  split.
  - destruct (addParticipantToChat_failures "1" "carol" Examples.world1)
      as (r & w' & Hrun & Hmissing & _).
    rewrite Hrun. simpl. f_equal. by apply Hmissing.
  - destruct (addParticipantToChat_failures "9" "bob" Examples.world1)
      as (r & w' & Hrun & _ & Hnochat & _).
    rewrite Hrun. simpl. f_equal. apply Hnochat; [by eexists | done |].
    repeat constructor. simpl. discriminate.
Defined.

Lemma update_by_id_Forall (P : ChatDoc -> Prop) (chatId : string)
    (f : ChatDoc -> ChatDoc) (cs cs' : list ChatDoc) (d' : ChatDoc) :
  (forall d, P d -> P (f d)) -> Forall P cs ->
  update_by_id chatId f cs = Some (d', cs') -> Forall P cs'.
Proof.
  intros Hf Hcs. revert cs' d'. induction Hcs as [| c cs Hc Hcs IH]; intros cs' d'; simpl.
  - discriminate.
  - destruct (has_id chatId c).
    + intros [= <- <-]. constructor; [by apply Hf | done].
    + destruct (update_by_id chatId f cs) as [[d'' cs''] |]; [| discriminate].
      intros [= <- <-]. constructor; [done | by apply (IH cs'' d'')].
Qed.

(** X6. [addParticipantToChat] keeps participant lists free of
    duplicates: if no stored chat lists a participant twice before the call,
    none does after it, whatever the call returns. *)
Theorem addParticipantToChat_keeps_NoDup (chatId userId : string) (w : World) :
  Forall (fun d => NoDup (cd_participants d)) (chatColl w) ->
  Forall (fun d => NoDup (cd_participants d))
         (chatColl (addParticipantToChat chatId userId w).2).
Proof.
  intros Hnodup.
  unfold addParticipantToChat, try_catch, bind, UserModel_findById,
    ChatModel_findByIdAndUpdate.
  destruct (hd false (faults w)) eqn:Hhd1.
  { by rewrite storage_fault by done. }
  rewrite storage_ok by done. simpl.
  destruct (users w !! userId) as [u |]; [| done].
  destruct (hd false (tail (faults w))) eqn:Hhd2.
  { by rewrite storage_fault by done. }
  rewrite storage_ok by done. simpl.
  destruct (update_by_id chatId _ (chatColl w)) as [[d' cs'] |] eqn:Hupd; simpl; [| done].
  refine (update_by_id_Forall _ _ _ _ _ _ _ Hnodup Hupd).
  intros d Hd. simpl. unfold addToSet_participants.
  destruct (Server.includes userId (cd_participants d)) eqn:Hinc; [done |].
  simpl. apply NoDup_app. split; [done |]. split; [| apply NoDup_singleton].
  intros x Hx Hx'. apply list_elem_of_singleton in Hx'. subst x.
  apply includes_spec in Hx. congruence.
Qed.

Lemma addParticipantToChat_keeps_NoDup_witness :
  Forall (fun d => NoDup (cd_participants d))
         (chatColl (addParticipantToChat "1" "bob" Examples.world1).2).
Proof.
  apply (addParticipantToChat_keeps_NoDup "1" "bob" Examples.world1).
  apply (bool_decide_unpack _). vm_compute. exact I.
Defined.

Lemma matches_all_same_set (p q : list string) (d : ChatDoc) :
  (forall u, u ∈ p <-> u ∈ q) -> matches_all p d = matches_all q d.
Proof.
  intros Hpq. destruct p as [| a p], q as [| b q]; [done | | |].
  - assert (Hb : b ∈ @nil string) by (apply Hpq, list_elem_of_here).
    by apply elem_of_nil in Hb.
  - assert (Ha : a ∈ @nil string) by (apply Hpq, list_elem_of_here).
    by apply elem_of_nil in Ha.
  - apply eq_true_iff_eq.
    rewrite !matches_all_subseteq by done.
    split; intros Hsub u Hu; apply Hsub; by apply Hpq.
Qed.

(** X7. The result of [getChatsByParticipants] depends only on the set
    of usernames given: two lists with the same elements, in any order and
    with any repetitions, give the same chats. *)
Theorem getChatsByParticipants_same_set (p q : list string) (w : World) :
  (forall u, u ∈ p <-> u ∈ q) ->
  (getChatsByParticipants p w).1 = (getChatsByParticipants q w).1.
Proof.
  intros Hpq. unfold getChatsByParticipants, try_catch, bind, ChatModel_find_all.
  destruct (hd false (faults w)) eqn:Hhd.
  - by rewrite !storage_fault by done.
  - rewrite !storage_ok by done. simpl. do 2 f_equal.
    apply list_filter_iff. intros d. by rewrite (matches_all_same_set p q d Hpq).
Qed.

Lemma getChatsByParticipants_same_set_witness :
  (getChatsByParticipants ["bob"; "alice"; "bob"] Examples.world1).1
  = (getChatsByParticipants ["alice"; "bob"] Examples.world1).1.
Proof.
  apply (getChatsByParticipants_same_set ["bob"; "alice"; "bob"] ["alice"; "bob"]
           Examples.world1).
  intros u. rewrite !elem_of_cons, elem_of_nil. tauto.
Defined.

(** ** [saveChat], the whole run *)

Lemma no_fault_faults (n : nat) (w w' : World) :
  faults w' = faults w -> no_fault n w' = no_fault n w.
Proof. unfold no_fault. by intros ->. Qed.

Lemma no_fault_add (n k : nat) (w : World) :
  no_fault (n + k) w = no_fault n w && forallb negb (take k (drop n (faults w))).
Proof.
  unfold no_fault. generalize (faults w). intros fs. revert fs.
  induction n as [| n IH]; intros fs; simpl; [done |].
  destruct fs as [| b fs]; simpl.
  - by rewrite take_nil.
  - by rewrite IH, andb_assoc.
Qed.

Lemma saveChat_participants_all_found (ps : list string) (w : World) :
  Forall (fun p => is_Some (users w !! p)) ps ->
  no_fault (length ps) w = true ->
  saveChat_participants ps w = (Returned None, after_calls (UserFindById <$> ps) w).
Proof.
  revert w. induction ps as [| p ps IH]; intros w Hall Hnf; simpl.
  - by rewrite after_calls_nil.
  - apply Forall_cons in Hall as [[u Hu] Hall]. simpl in Hnf.
    apply no_fault_S in Hnf as [Hhd Hnf].
    unfold bind, UserModel_findById. rewrite storage_ok by done. simpl. rewrite Hu.
    rewrite IH; [by rewrite after_calls_cons | done | done].
Qed.

Lemma saveChat_participants_missing (l1 l2 : list string) (q : string) (w : World) :
  Forall (fun p => is_Some (users w !! p)) l1 ->
  users w !! q = None ->
  no_fault (S (length l1)) w = true ->
  saveChat_participants (l1 ++ q :: l2) w
  = (Returned (Some ("User not found: " +:+ q)),
     after_calls (UserFindById <$> (l1 ++ [q])) w).
Proof.
  revert w. induction l1 as [| p l1 IH]; intros w Hall Hq Hnf; simpl.
  - apply no_fault_S in Hnf as [Hhd _].
    unfold bind, UserModel_findById. rewrite storage_ok by done. simpl. rewrite Hq.
    by rewrite after_calls_one.
  - apply Forall_cons in Hall as [[u Hu] Hall]. simpl in Hnf.
    apply no_fault_S in Hnf as [Hhd Hnf].
    unfold bind, UserModel_findById. rewrite storage_ok by done. simpl. rewrite Hu.
    rewrite IH; [by rewrite after_calls_cons | done | done | done].
Qed.

Lemma after_messages_nil (w : World) : after_messages [] w = w.
Proof.
  destruct w. unfold after_messages. simpl.
  by rewrite !app_nil_r, Nat.add_0_r.
Qed.

Lemma saveChat_messages_app (ms1 ms2 : list Message) (ids : list ObjectId) (w : World) :
  no_fault (length ms1) w = true ->
  saveChat_messages (ms1 ++ ms2) ids w
  = saveChat_messages ms2
      (ids ++ (md_id <$> stored_messages (next_oid w) (clock w) ms1))
      (after_messages ms1 w).
Proof.
  revert ids w. induction ms1 as [| m ms1 IH]; intros ids w Hnf; simpl.
  - by rewrite after_messages_nil, app_nil_r.
  - simpl in Hnf. apply no_fault_S in Hnf as [Hhd Hnf].
    unfold bind at 1. unfold new_Date at 1. unfold bind at 1.
    unfold MessageModel_create. rewrite storage_ok by done. simpl.
    rewrite IH by (erewrite no_fault_faults; [apply (Hnf MessageCreate) | done]).
    simpl. rewrite <- app_assoc. simpl. f_equal.
    unfold after_messages, begin_call, set_next_oid, set_messageColl, set_oplog,
      set_faults, fresh_oid.
    simpl. rewrite <- !app_assoc. simpl. f_equal; [lia |].
    destruct (faults w); simpl; [by rewrite drop_nil | done].
Qed.

(** X8. When every participant exists and none of the storage calls
    throws, [saveChat] stores one document per submitted message, in order,
    with the message's [msg] and [msgFrom], with its [msgDateTime] or else
    the current time and with its [type] or else the default of the message
    model, then stores one chat holding the participants exactly as given
    (empty list and repetitions included) and the ids of those messages in
    order, and returns that chat. *)
Theorem saveChat_stores_messages_then_chat (payload : CreateChatPayload) (w : World) :
  Forall (fun p => is_Some (users w !! p)) (p_participants payload) ->
  no_fault (length (p_participants payload) + length (p_messages payload) + 1) w = true ->
  exists docs d w',
    saveChat payload w = (Returned (Doc (chat_toObject d)), w')
    /\ messageColl w' = messageColl w ++ docs
    /\ chatColl w' = chatColl w ++ [d]
    /\ cd_participants d = p_participants payload
    /\ cd_messages d = md_id <$> docs
    /\ Forall2 (fun m doc =>
                  md_msg doc = msg m /\ md_msgFrom doc = msgFrom m
                  /\ md_type doc = Some (default direct (msg_type m))
                  /\ md_msgDateTime doc = Some (default (clock w) (msgDateTime m)))
               (p_messages payload) docs.
Proof.
  destruct payload as [ps ms]. simpl. intros Hall Hnf.
  rewrite <- Nat.add_assoc in Hnf. rewrite no_fault_add in Hnf.
  apply andb_true_iff in Hnf as [Hnf1 Hnf2].
  unfold saveChat, try_catch, bind. simpl.
  rewrite saveChat_participants_all_found by done.
  set (w1 := after_calls (UserFindById <$> ps) w).
  assert (Hnf3 : no_fault (length ms + 1) w1 = true).
  { unfold no_fault, w1. simpl. by rewrite length_fmap. }
  rewrite no_fault_add in Hnf3. apply andb_true_iff in Hnf3 as [Hnf3 Hnf4].
  replace (saveChat_messages ms [] w1) with (saveChat_messages (ms ++ []) [] w1)
    by (by rewrite app_nil_r).
  rewrite saveChat_messages_app by done. simpl.
  assert (Hhd : hd false (faults (after_messages ms w1)) = false).
  { change (faults (after_messages ms w1)) with (drop (length ms) (faults w1)).
    by destruct (drop (length ms) (faults w1)) as [| [] ?]. }
  unfold ChatModel_create. rewrite storage_ok by exact Hhd. simpl.
  eexists _, _, _. split; [reflexivity |]. simpl.
  split; [done |]. split; [done |]. split; [done |]. split; [done |].
  generalize (next_oid w). clear. induction ms as [| m ms IH]; intros n; simpl;
    constructor; [done | apply IH].
Qed.

Lemma saveChat_stores_messages_then_chat_witness :
  exists docs d w',
    saveChat (mkPayload ["alice"; "bob"]
                [mkMessage None (Some "hi") (Some "alice") None None]) Examples.world0
    = (Returned (Doc (chat_toObject d)), w')
    /\ cd_participants d = ["alice"; "bob"]
    /\ cd_messages d = md_id <$> docs
    /\ messageColl w' = docs.
Proof.
  destruct (saveChat_stores_messages_then_chat
              (mkPayload ["alice"; "bob"]
                 [mkMessage None (Some "hi") (Some "alice") None None]) Examples.world0)
    as (docs & d & w' & Hrun & Hms & _ & Hps & Hids & _).
  - repeat constructor; by eexists.
  - reflexivity.
  - exists docs, d, w'. split; [exact Hrun |]. split; [exact Hps |].
    split; [exact Hids | exact Hms].
Defined.

(** X9. [saveChat] does not undo what it stored: when every participant
    exists and the storage call that creates the message number [j]
    (counting from 0) is the first one to throw, the result is the error
    "Failed to save chat", no chat is stored, and the [j] messages created
    before stay in the message collection. *)
Theorem saveChat_failure_keeps_stored_messages
    (payload : CreateChatPayload) (w : World) (j : nat) :
  Forall (fun p => is_Some (users w !! p)) (p_participants payload) ->
  j < length (p_messages payload) ->
  no_fault (length (p_participants payload) + j) w = true ->
  faults w !! (length (p_participants payload) + j) = Some true ->
  exists docs w',
    saveChat payload w = (Returned (ErrorObj "Failed to save chat"), w')
    /\ chatColl w' = chatColl w
    /\ messageColl w' = messageColl w ++ docs
    /\ length docs = j.
Proof.
  destruct payload as [ps ms]. simpl. intros Hall Hj Hnf Hfault.
  rewrite no_fault_add in Hnf. apply andb_true_iff in Hnf as [Hnf1 Hnf2].
  unfold saveChat, try_catch, bind. simpl.
  rewrite saveChat_participants_all_found by done.
  set (w1 := after_calls (UserFindById <$> ps) w).
  assert (Hf1 : faults w1 = drop (length ps) (faults w)).
  { unfold w1. simpl. by rewrite length_fmap. }
  assert (Hnf3 : no_fault j w1 = true) by (unfold no_fault; by rewrite Hf1).
  assert (Hlen : length (take j ms) = j) by (rewrite length_take; lia).
  replace (saveChat_messages ms [] w1)
    with (saveChat_messages (take j ms ++ drop j ms) [] w1)
    by (by rewrite take_drop).
  rewrite saveChat_messages_app by (by rewrite Hlen).
  destruct (drop j ms) as [| m rest] eqn:Hdrop.
  { apply (f_equal length) in Hdrop. rewrite length_drop in Hdrop. simpl in Hdrop. lia. }
  simpl. unfold bind at 1. unfold new_Date at 1. unfold bind at 1.
  assert (Hhd : hd false (faults (after_messages (take j ms) w1)) = true).
  { change (faults (after_messages (take j ms) w1))
      with (drop (length (take j ms)) (faults w1)).
    rewrite Hlen, Hf1, drop_drop.
    rewrite <- (take_drop_middle _ _ _ Hfault).
    rewrite drop_app_length'; [done |]. rewrite length_take.
    apply lookup_lt_Some in Hfault. lia. }
  unfold MessageModel_create. rewrite storage_fault by exact Hhd. simpl.
  eexists _, _. split; [reflexivity |]. simpl. split; [done |]. split; [done |].
  rewrite <- Hlen at 2. generalize (take j ms) (next_oid w). clear.
  intros l. induction l as [| m l IH]; intros n; simpl; [done |]. by rewrite IH.
Qed.

Lemma saveChat_failure_keeps_stored_messages_witness :
  exists docs w',
    saveChat (mkPayload ["alice"]
                [mkMessage None (Some "one") (Some "alice") None None;
                 mkMessage None (Some "two") (Some "alice") None None])
             (set_faults [false; false; true] Examples.world0)
    = (Returned (ErrorObj "Failed to save chat"), w')
    /\ chatColl w' = []
    /\ messageColl w' = docs /\ length docs = 1.
Proof.
  apply (saveChat_failure_keeps_stored_messages
           (mkPayload ["alice"]
              [mkMessage None (Some "one") (Some "alice") None None;
               mkMessage None (Some "two") (Some "alice") None None])
           (set_faults [false; false; true] Examples.world0) 1).
  - simpl. repeat constructor. exists (mkUser "alice"). reflexivity.
  - simpl. lia.
  - reflexivity.
  - reflexivity.
Defined.

(** * Further properties of the controller *)

Lemma returns_send (status : nat) (body : Body) : returns (send status body).
Proof. apply returns_ret. Qed.

Lemma returns_bind {A B} (m : M A) (k : A -> M B) :
  (forall w a w', m w = (Returned a, w') -> exists b, (k a w').1 = Returned b) ->
  (forall w e w', m w <> (Thrown e, w')) ->
  returns (bind m k).
Proof.
  intros Hk Hm w. unfold bind. destruct (m w) as [[a | e] w'] eqn:Hrun.
  - by apply (Hk w).
  - by destruct (Hm w e w').
Qed.

Lemma answers_send (P : Response -> Prop) (status : nat) (body : Body) :
  P (mkResponse status body) -> answers P (send status body).
Proof. intros HP w r w' [= <- <-]. done. Qed.

Lemma answers_throw (P : Response -> Prop) (e : Exn) : answers P (throw e).
Proof. intros w r w'. discriminate. Qed.

Lemma answers_bind {A} (P : Response -> Prop) (m : M A) (k : A -> M Response) :
  (forall a, answers P (k a)) -> answers P (bind m k).
Proof.
  intros Hk w r w'. unfold bind. destruct (m w) as [[a | e] w1]; [| discriminate].
  apply Hk.
Qed.

Lemma answers_try_catch (P : Response -> Prop) (m : M Response) (h : Exn -> M Response) :
  answers P m -> (forall e, answers P (h e)) -> answers P (try_catch m h).
Proof.
  intros Hm Hh w r w'. unfold try_catch. destruct (m w) as [[a | e] w1] eqn:Hrun.
  - intros [= <- <-]. by apply (Hm w a w1).
  - apply Hh.
Qed.

Ltac answers_step :=
  first
    [ apply answers_send; simpl; tauto
    | apply answers_throw
    | apply answers_try_catch
    | apply answers_bind
    | match goal with
      | |- answers _ (match ?x with _ => _ end) => destruct x
      | |- answers _ (if ?b then _ else _) => destruct b
      | |- forall _, _ => intros
      end ].

(** The statuses the controller uses. *)
Lemma route_answers (m : M Response) (h : Exn -> M Response) (w : World) :
  answers (fun r => status r = 200 \/ status r = 400 \/ status r = 500) m ->
  (forall e, exists st b, h e = send st b /\ (st = 200 \/ st = 400 \/ st = 500)) ->
  exists resp w',
    try_catch m h w = (Returned resp, w')
    /\ (status resp = 200 \/ status resp = 400 \/ status resp = 500).
Proof.
  intros Hm Hh. unfold try_catch. destruct (m w) as [[r | e] w1] eqn:Hrun.
  - exists r, w1. split; [done |]. by apply (Hm w r w1).
  - destruct (Hh e) as (st & b & -> & Hst). by exists (mkResponse st b), w1.
Qed.

(** X10. Every route answers: none of the five route handlers throws,
    whatever the request and whatever the storage does, and the status it
    sends is 200, 400 or 500. *)
Theorem routes_always_answer (w : World) :
  (forall req, exists resp w',
      createChatRoute req w = (Returned resp, w')
      /\ (status resp = 200 \/ status resp = 400 \/ status resp = 500))
  /\ (forall req, exists resp w',
        addMessageToChatRoute req w = (Returned resp, w')
        /\ (status resp = 200 \/ status resp = 400 \/ status resp = 500))
  /\ (forall req, exists resp w',
        getChatRoute req w = (Returned resp, w')
        /\ (status resp = 200 \/ status resp = 400 \/ status resp = 500))
  /\ (forall req, exists resp w',
        getChatsByUserRoute req w = (Returned resp, w')
        /\ (status resp = 200 \/ status resp = 400 \/ status resp = 500))
  /\ (forall req, exists resp w',
        addParticipantToChatRoute req w = (Returned resp, w')
        /\ (status resp = 200 \/ status resp = 400 \/ status resp = 500)).
Proof.
  repeat split.
  - intros req. unfold createChatRoute.
    destruct (isCreateChatRequestValid req); simpl.
    + apply route_answers; [repeat answers_step | intros e; eexists _, _; eauto].
    + eexists _, _. split; [reflexivity |]. simpl. tauto.
  - intros req. unfold addMessageToChatRoute.
    destruct (isAddMessageRequestValid req); simpl.
    + unfold bind at 1. simpl.
      apply route_answers; [repeat answers_step | intros e; eexists _, _; eauto].
    + eexists _, _. split; [reflexivity |]. simpl. tauto.
  - intros req. unfold getChatRoute.
    apply route_answers; [repeat answers_step | intros e; eexists _, _; eauto].
  - intros req. unfold getChatsByUserRoute.
    destruct (truthy (gc_username req)); simpl.
    + apply route_answers; [repeat answers_step | intros e; eexists _, _; eauto].
    + eexists _, _. split; [reflexivity |]. simpl. tauto.
  - intros req. unfold addParticipantToChatRoute.
    destruct (isAddParticipantRequestValid req); simpl.
    + apply route_answers; [repeat answers_step | intros e; eexists _, _; eauto].
    + eexists _, _. split; [reflexivity |]. simpl. tauto.
Qed.

(** X11. A request that fails validation is answered 400 "Invalid body"
    and nothing else happens (the world is the one the route started in):
    for [createChatRoute] when [participants] is missing, not an array or
    empty, or [messages] is missing or not an array; for
    [addMessageToChatRoute] when [msg], [msgFrom] or the chat id is missing
    or empty; for [addParticipantToChatRoute] when [userId] or the chat id
    is missing or empty. *)
Theorem invalid_requests_answer_400 (w : World) :
  (forall req,
      cc_participants req = None \/ cc_participants req = Some [] \/ cc_messages req = None ->
      createChatRoute req w = (Returned (mkResponse 400 (Text "Invalid body")), w))
  /\ (forall req,
        am_msg req = None \/ am_msg req = Some "" \/ am_msgFrom req = None
        \/ am_msgFrom req = Some "" \/ am_chatId req = "" ->
        addMessageToChatRoute req w = (Returned (mkResponse 400 (Text "Invalid body")), w))
  /\ (forall req,
        ap_userId req = None \/ ap_userId req = Some "" \/ ap_chatId req = "" ->
        addParticipantToChatRoute req w
        = (Returned (mkResponse 400 (Text "Invalid body")), w)).
Proof.
  repeat split.
  - intros [ps ms] H. unfold createChatRoute, isCreateChatRequestValid. simpl in *.
    destruct H as [-> | [-> | ->]]; [done | by destruct ms | by destruct ps].
  - intros [c m f t] H. unfold addMessageToChatRoute, isAddMessageRequestValid.
    simpl in *.
    destruct H as [-> | [-> | [-> | [-> | ->]]]]; simpl;
      rewrite ?andb_false_r; done.
  - intros [c u] H. unfold addParticipantToChatRoute, isAddParticipantRequestValid.
    simpl in *.
    destruct H as [-> | [-> | ->]]; simpl; rewrite ?andb_false_r; done.
Qed.

Lemma invalid_requests_answer_400_witness :
  createChatRoute (mkCreateChatRequest (Some []) (Some [])) Examples.world1
  = (Returned (mkResponse 400 (Text "Invalid body")), Examples.world1)
  /\ addMessageToChatRoute (mkAddMessageRequest "1" (Some "") (Some "bob") None)
       Examples.world1
     = (Returned (mkResponse 400 (Text "Invalid body")), Examples.world1)
  /\ addParticipantToChatRoute (mkAddParticipantRequest "1" None) Examples.world1
     = (Returned (mkResponse 400 (Text "Invalid body")), Examples.world1).
Proof.
  destruct (invalid_requests_answer_400 Examples.world1) as (Hc & Hm & Hp).
  split; [| split].
  - apply Hc. right. left. reflexivity.
  - apply Hm. right. left. reflexivity.
  - apply Hp. left. reflexivity.
Defined.

Lemma saveChat_run_missing (payload : CreateChatPayload) (w : World)
    (l1 l2 : list string) (q : string) :
  p_participants payload = l1 ++ q :: l2 ->
  Forall (fun p => is_Some (users w !! p)) l1 ->
  users w !! q = None ->
  no_fault (S (length l1)) w = true ->
  saveChat payload w
  = (Returned (ErrorObj ("User not found: " +:+ q)),
     after_calls (UserFindById <$> (l1 ++ [q])) w).
Proof.
  intros Hps Hl1 Hq Hnf. unfold saveChat, try_catch, bind. rewrite Hps.
  by rewrite saveChat_participants_missing by done.
Qed.

(** X12. [createChatRoute] with an unknown participant: for a valid body
    whose participant list has a first entry that is not in the user
    collection (the lookups up to it not throwing), the answer is 500 with
    the text "Error when creating chat: Error: User not found: <entry>";
    the route only made the lookups up to that entry, so nothing was stored
    and no event was emitted. *)
Theorem createChatRoute_unknown_participant
    (req : CreateChatRequest) (w : World)
    (l1 l2 : list string) (q : string) (ms : list Message) :
  cc_participants req = Some (l1 ++ q :: l2) ->
  cc_messages req = Some ms ->
  Forall (fun p => is_Some (users w !! p)) l1 ->
  users w !! q = None ->
  no_fault (S (length l1)) w = true ->
  createChatRoute req w
  = (Returned (mkResponse 500
       (Text ("Error when creating chat: Error: User not found: " +:+ q))),
     after_calls (UserFindById <$> (l1 ++ [q])) w).
Proof.
  intros Hps Hms Hl1 Hq Hnf. unfold createChatRoute, isCreateChatRequestValid.
  rewrite Hps, Hms.
  replace (negb (negb (length (l1 ++ q :: l2) =? 0))) with false
    by (rewrite length_app; simpl; by rewrite Nat.add_succ_r).
  erewrite try_catch_bind_run
    by (apply (saveChat_run_missing _ _ l1 l2 q);
        [unfold createChat_payload; simpl; by rewrite Hps | done | done | done]).
  reflexivity.
Qed.

Lemma createChatRoute_unknown_participant_witness :
  exists w',
    createChatRoute (mkCreateChatRequest (Some ["alice"; "carol"]) (Some []))
      Examples.world0
    = (Returned (mkResponse 500
         (Text "Error when creating chat: Error: User not found: carol")), w')
    /\ chatColl w' = [] /\ messageColl w' = [] /\ outbox w' = [].
Proof.
  eexists. split.
  - apply (createChatRoute_unknown_participant
             (mkCreateChatRequest (Some ["alice"; "carol"]) (Some []))
             Examples.world0 ["alice"] [] "carol" []); try reflexivity.
    repeat constructor. exists (mkUser "alice"). reflexivity.
  - repeat split; reflexivity.
Defined.

Lemma addMessageToChat_run_missing (chatId messageId : string) (w : World) :
  hd false (faults w) = false ->
  Forall (fun d => cd_id d <> chatId) (chatColl w) ->
  addMessageToChat chatId messageId w
  = (Returned (ErrorObj "Chat not found"), begin_call (ChatFindByIdAndUpdate chatId) w).
Proof.
  intros Hhd Hnone. unfold addMessageToChat, try_catch, bind, ChatModel_findByIdAndUpdate.
  rewrite storage_ok by done. simpl. by rewrite update_by_id_None by done.
Qed.

(** X13. [addMessageToChatRoute] creates the message before it looks at
    the chat: for a valid request whose chat id no stored chat has (the two
    storage calls not throwing) the answer is 500 with the text
    "Error when adding message to chat: Error: Chat not found", no event is
    emitted and no chat changes, but the message of the request has been
    stored, referenced by no chat. *)
Theorem addMessageToChatRoute_unknown_chat_keeps_message
    (req : AddMessageRequestToChat) (w : World) :
  isAddMessageRequestValid req = true ->
  no_fault 2 w = true ->
  Forall (fun d => cd_id d <> am_chatId req) (chatColl w) ->
  exists m w',
    addMessageToChatRoute req w
    = (Returned (mkResponse 500
         (Text "Error when adding message to chat: Error: Chat not found")), w')
    /\ messageColl w' = messageColl w ++ [m]
    /\ md_msg m = am_msg req /\ md_msgFrom m = am_msgFrom req
    /\ chatColl w' = chatColl w
    /\ outbox w' = outbox w.
Proof.
  intros Hvalid Hnf Hnone. apply no_fault_2 in Hnf as [Hhd1 Hhd2].
  unfold addMessageToChatRoute. rewrite Hvalid. simpl.
  unfold bind at 1. simpl.
  erewrite try_catch_bind_run by (by apply createMessage_run).
  cbv beta. simpl.
  erewrite try_catch_bind_run by (by apply addMessageToChat_run_missing).
  eexists _, _. split; [reflexivity |]. done.
Qed.

Lemma addMessageToChatRoute_unknown_chat_keeps_message_witness :
  exists m w',
    addMessageToChatRoute (mkAddMessageRequest "9" (Some "yo") (Some "bob") None)
      Examples.world1
    = (Returned (mkResponse 500
         (Text "Error when adding message to chat: Error: Chat not found")), w')
    /\ messageColl w' = [Examples.message0; m]
    /\ md_msg m = Some "yo".
Proof.
  destruct (addMessageToChatRoute_unknown_chat_keeps_message
              (mkAddMessageRequest "9" (Some "yo") (Some "bob") None) Examples.world1)
    as (m & w' & Hrun & Hms & Hmsg & _).
  - reflexivity.
  - reflexivity.
  - repeat constructor. simpl. discriminate.
  - exists m, w'. split; [exact Hrun |]. split; [exact Hms | exact Hmsg].
Defined.

(** ** Routes that read *)

Lemma find_has_id_Some (chatId : string) (cs : list ChatDoc) (d : ChatDoc) :
  find (has_id chatId) cs = Some d -> cd_id d = chatId /\ d ∈ cs.
Proof.
  intros Hfind. apply find_some in Hfind as [Hin Hid].
  split; [by apply String.eqb_eq | by apply list_elem_of_In].
Qed.

Lemma elem_of_find_has_id (cs : list ChatDoc) (d : ChatDoc) :
  d ∈ cs -> exists d', find (has_id (cd_id d)) cs = Some d'.
Proof.
  induction 1 as [d cs | d c cs _ IH]; simpl.
  - unfold has_id at 1. rewrite String.eqb_refl. by eexists.
  - destruct (has_id (cd_id d) c); [by eexists | done].
Qed.

Lemma populateDocument_run_found (id : string) (w : World) (d : ChatDoc) :
  hd false (faults w) = false ->
  find (has_id id) (chatColl w) = Some d ->
  populateDocument (Some id) w
  = (Returned (Doc (populate_chat (begin_call (ChatPopulate id) w) d)),
     begin_call (ChatPopulate id) w).
Proof.
  intros Hhd Hfind. unfold populateDocument, try_catch, bind.
  rewrite storage_ok by done. simpl. by rewrite Hfind.
Qed.

Lemma getChat_Doc_id (chatId : string) (w w' : World) (c : Chat) :
  getChat chatId w = (Returned (Doc c), w') -> chat_id c = Some chatId.
Proof.
  unfold getChat, try_catch, bind, ChatModel_findById, storage.
  destruct (hd false (faults w)); simpl; [discriminate |].
  destruct (find (has_id chatId) (chatColl w)) as [d |] eqn:Hfind; simpl; [| discriminate].
  intros [= <- <-]. simpl. by apply find_has_id_Some in Hfind as [-> _].
Qed.

Lemma getChat_returns (chatId : string) : returns (getChat chatId).
Proof. apply returns_try_catch. intros e. apply returns_ret. Qed.

(** X14. [getChatRoute] answers either 200 with an enriched chat, never
    with an error object, or 500 with the fixed text
    "Failed to get chat by chatId", whatever went wrong (the cause is not
    passed on); for an id no stored chat has the answer is the 500. *)
Theorem getChatRoute_answers (req : ChatIdRequest) (w : World) :
  exists resp w',
    getChatRoute req w = (Returned resp, w')
    /\ (resp = mkResponse 500 (Text "Failed to get chat by chatId")
        \/ exists pc, resp = mkResponse 200 (Populated (Doc pc)))
    /\ (Forall (fun d => cd_id d <> ci_chatId req) (chatColl w) -> status resp = 500).
Proof.
  unfold getChatRoute.
  destruct (returns_run _ w (getChat_returns (ci_chatId req))) as [r1 Hr1].
  rewrite (try_catch_bind_run _ _ _ _ _ _ Hr1).
  destruct r1 as [c | error].
  - pose proof (getChat_Doc_id _ _ _ _ Hr1) as Hid. rewrite Hid.
    set (w1 := (getChat (ci_chatId req) w).2) in *.
    destruct (returns_run _ w1 (populateDocument_returns (Some (ci_chatId req))))
      as [r2 Hr2].
    rewrite (try_catch_bind_run _ _ _ _ _ _ Hr2).
    destruct r2 as [pc | error].
    + eexists _, _. split; [reflexivity |]. split.
      * right. by exists pc.
      * intros Hnone. exfalso. revert Hr1.
        unfold getChat, try_catch, bind, ChatModel_findById, storage.
        destruct (hd false (faults w)); simpl; [discriminate |].
        by rewrite find_has_id_None by done.
    + eexists _, _. split; [reflexivity |]. split; [by left | done].
  - eexists _, _. split; [reflexivity |]. split; [by left | done].
Qed.

Lemma getChatRoute_answers_witness :
  exists resp w',
    getChatRoute (mkChatIdRequest "9") Examples.world1 = (Returned resp, w')
    /\ status resp = 500.
Proof.
  destruct (getChatRoute_answers (mkChatIdRequest "9") Examples.world1)
    as (resp & w' & Hrun & _ & Hnone).
  exists resp, w'. split; [exact Hrun |]. apply Hnone.
  repeat constructor. simpl. discriminate.
Defined.

Lemma getChat_preserves {B} (f : World -> B) (chatId : string) :
  (forall op w, f (begin_call op w) = f w) -> preserves f (getChat chatId).
Proof. intros Hop. unfold getChat, ChatModel_findById. solve_preserves. Qed.

Lemma getChatsByParticipants_preserves {B} (f : World -> B) (p : list string) :
  (forall op w, f (begin_call op w) = f w) -> preserves f (getChatsByParticipants p).
Proof. intros Hop. unfold getChatsByParticipants, ChatModel_find_all. solve_preserves. Qed.

Lemma populateDocument_preserves {B} (f : World -> B) (id : option string) :
  (forall op w, f (begin_call op w) = f w) -> preserves f (populateDocument id).
Proof. intros Hop. unfold populateDocument. solve_preserves. Qed.

Lemma getChatsByUser_enrich_preserves {B} (f : World -> B)
    (chatResult : list Chat) (enrichedChats : list (Resp PopulatedChat)) :
  (forall op w, f (begin_call op w) = f w) ->
  preserves f (getChatsByUser_enrich chatResult enrichedChats).
Proof.
  intros Hop. revert enrichedChats.
  induction chatResult as [| c cs IH]; intros enrichedChats; simpl;
    [apply preserves_ret |].
  destruct (chat_id c); [| apply preserves_throw].
  apply preserves_bind; [by apply populateDocument_preserves |].
  intros [pc | error]; [apply IH | apply preserves_throw].
Qed.

Lemma addParticipantToChat_preserves {B} (f : World -> B) (chatId userId : string) :
  (forall op w, f (begin_call op w) = f w) ->
  (forall cs w, f (set_chatColl cs w) = f w) ->
  preserves f (addParticipantToChat chatId userId).
Proof.
  intros Hop Hset. unfold addParticipantToChat, UserModel_findById. solve_preserves.
Qed.

Lemma getChatRoute_preserves {B} (f : World -> B) (req : ChatIdRequest) :
  (forall op w, f (begin_call op w) = f w) -> preserves f (getChatRoute req).
Proof.
  intros Hop. unfold getChatRoute.
  apply preserves_try_catch; [| intros e; apply preserves_send].
  apply preserves_bind; [by apply getChat_preserves |].
  intros [c | error]; [| apply preserves_throw].
  apply preserves_bind; [by apply populateDocument_preserves |].
  intros [pc | error]; [apply preserves_send | apply preserves_throw].
Qed.

Lemma getChatsByUserRoute_preserves {B} (f : World -> B) (req : GetChatByParticipantsRequest) :
  (forall op w, f (begin_call op w) = f w) -> preserves f (getChatsByUserRoute req).
Proof.
  intros Hop. unfold getChatsByUserRoute.
  destruct (truthy (gc_username req)); simpl; [| apply preserves_send].
  apply preserves_try_catch; [| intros e; apply preserves_send].
  apply preserves_bind; [by apply getChatsByParticipants_preserves |].
  intros cs. apply preserves_bind; [by apply getChatsByUser_enrich_preserves |].
  intros l. apply preserves_send.
Qed.

Lemma addParticipantToChatRoute_preserves {B} (f : World -> B) (req : AddParticipantRequest) :
  (forall op w, f (begin_call op w) = f w) ->
  (forall cs w, f (set_chatColl cs w) = f w) ->
  preserves f (addParticipantToChatRoute req).
Proof.
  intros Hop Hset. unfold addParticipantToChatRoute.
  destruct (isAddParticipantRequestValid req); simpl; [| apply preserves_send].
  apply preserves_try_catch; [| intros e; apply preserves_send].
  apply preserves_bind; [by apply addParticipantToChat_preserves |].
  intros [c | error]; apply preserves_send.
Qed.

(** X15. Only chat creation and message addition notify clients.
    [getChatRoute] and [getChatsByUserRoute] are read-only: they emit no
    event and leave the user, message and chat collections as they were.
    [addParticipantToChatRoute] emits no event either (an added participant
    is not notified) and never touches users or messages. *)
Theorem routes_without_events (w : World) :
  (forall req,
      outbox (getChatRoute req w).2 = outbox w
      /\ users (getChatRoute req w).2 = users w
      /\ messageColl (getChatRoute req w).2 = messageColl w
      /\ chatColl (getChatRoute req w).2 = chatColl w)
  /\ (forall req,
        outbox (getChatsByUserRoute req w).2 = outbox w
        /\ users (getChatsByUserRoute req w).2 = users w
        /\ messageColl (getChatsByUserRoute req w).2 = messageColl w
        /\ chatColl (getChatsByUserRoute req w).2 = chatColl w)
  /\ (forall req,
        outbox (addParticipantToChatRoute req w).2 = outbox w
        /\ users (addParticipantToChatRoute req w).2 = users w
        /\ messageColl (addParticipantToChatRoute req w).2 = messageColl w).
Proof.
  split; [| split]; intros req.
  - repeat split; by apply getChatRoute_preserves.
  - repeat split; by apply getChatsByUserRoute_preserves.
  - repeat split; by apply addParticipantToChatRoute_preserves.
Qed.

Lemma getChatsByParticipants_run_ok (p : list string) (w : World) :
  hd false (faults w) = false ->
  getChatsByParticipants p w
  = (Returned (chat_toObject <$> filter (fun d => matches_all p d) (chatColl w)),
     begin_call (ChatFind p) w).
Proof.
  intros Hhd. unfold getChatsByParticipants, try_catch, bind, ChatModel_find_all.
  by rewrite storage_ok by done.
Qed.

Lemma getChatsByParticipants_run_fault (p : list string) (w : World) :
  hd false (faults w) = true ->
  getChatsByParticipants p w = (Returned [], begin_call (ChatFind p) w).
Proof.
  intros Hhd. unfold getChatsByParticipants, try_catch, bind, ChatModel_find_all.
  by rewrite storage_fault by done.
Qed.

(** X16. How [getChatsByUserRoute] reports failures, for a present,
    non-empty username.  A chat query that throws is not reported: the
    service turns it into an empty list and the route answers 200 with an
    empty list.  A failing enrichment is reported without its cause: when
    the query succeeds and [populateDocument] returns an error object for
    the first chat found, the answer is 500 with the text
    "Error retrieving chat: Failed populating chats". *)
Theorem getChatsByUserRoute_failures (username : string) (w : World) :
  username <> "" ->
  (hd false (faults w) = true ->
   (getChatsByUserRoute (mkGetChatsRequest (Some username)) w).1
   = Returned (mkResponse 200 (PopulatedList [])))
  /\ (forall d ds error w2,
        hd false (faults w) = false ->
        filter (fun d => username ∈ cd_participants d) (chatColl w) = d :: ds ->
        populateDocument (Some (cd_id d)) (begin_call (ChatFind [username]) w)
        = (Returned (ErrorObj error), w2) ->
        (getChatsByUserRoute (mkGetChatsRequest (Some username)) w).1
        = Returned (mkResponse 500
            (Text "Error retrieving chat: Failed populating chats"))).
Proof.
  intros Hname. apply String.eqb_neq in Hname.
  unfold getChatsByUserRoute, truthy. simpl. rewrite Hname. simpl.
  split.
  - intros Hhd.
    erewrite try_catch_bind_run by (by apply getChatsByParticipants_run_fault).
    reflexivity.
  - intros d ds error w2 Hhd Hfilter Hpop.
    erewrite try_catch_bind_run by (by apply getChatsByParticipants_run_ok).
    assert (Hsame : filter (fun d => matches_all [username] d) (chatColl w)
                    = filter (fun d => username ∈ cd_participants d) (chatColl w)).
    { apply list_filter_iff. intros x. simpl. rewrite andb_true_r.
      rewrite Is_true_true. apply includes_spec. }
    rewrite Hsame, Hfilter. simpl. unfold try_catch, bind. by rewrite Hpop.
Qed.

Lemma getChatsByUserRoute_failures_witness :
  (getChatsByUserRoute (mkGetChatsRequest (Some "bob"))
     (set_faults [true] Examples.world1)).1
  = Returned (mkResponse 200 (PopulatedList []))
  /\ (getChatsByUserRoute (mkGetChatsRequest (Some "bob"))
        (set_faults [false; true] Examples.world1)).1
     = Returned (mkResponse 500 (Text "Error retrieving chat: Failed populating chats")).
Proof.
  split.
  - apply (getChatsByUserRoute_failures "bob" (set_faults [true] Examples.world1));
      [discriminate | reflexivity].
  - eapply (getChatsByUserRoute_failures "bob" (set_faults [false; true] Examples.world1));
      [discriminate | reflexivity | |].
    + vm_compute. reflexivity.
    + vm_compute. reflexivity.
Defined.

Lemma getChatsByUser_enrich_run (ds : list ChatDoc)
    (enrichedChats : list (Resp PopulatedChat)) (w : World) :
  Forall (fun d => d ∈ chatColl w) ds ->
  no_fault (length ds) w = true ->
  exists l,
    getChatsByUser_enrich (chat_toObject <$> ds) enrichedChats w
    = (Returned (enrichedChats ++ l), after_calls ((fun d => ChatPopulate (cd_id d)) <$> ds) w)
    /\ Forall2 (fun d r => exists pc, r = Doc pc /\ pc_id pc = cd_id d) ds l.
Proof.
  revert enrichedChats w. induction ds as [| d ds IH]; intros enrichedChats w Hin Hnf.
  - exists []. simpl. rewrite app_nil_r, after_calls_nil. by split.
  - apply Forall_cons in Hin as [Hd Hin]. simpl in Hnf.
    apply no_fault_S in Hnf as [Hhd Hnf].
    destruct (elem_of_find_has_id _ _ Hd) as [d' Hfind].
    simpl. unfold bind.
    rewrite (populateDocument_run_found _ _ d') by done.
    destruct (IH (enrichedChats ++
                  [Doc (populate_chat (begin_call (ChatPopulate (cd_id d)) w) d')])
                 (begin_call (ChatPopulate (cd_id d)) w)) as (l & Hrun & Hl);
      [done | done |].
    cbv beta iota. eexists (_ :: l). split.
    { etrans; [exact Hrun |]. rewrite <- app_assoc. simpl.
      by rewrite after_calls_cons. }
    constructor; [| done]. eexists. split; [reflexivity |]. simpl.
    by apply find_has_id_Some in Hfind as [Hid _].
Qed.

(** X17. When no storage call throws, [getChatsByUserRoute] answers 200
    with one enriched chat for each stored chat that has the user among its
    participants, in storage order and with the same ids; it makes one
    query and one enrichment call per such chat. *)
Theorem getChatsByUserRoute_lists_chats_of_user (username : string) (w : World) :
  username <> "" ->
  no_fault (S (length (superset_chats [username] w))) w = true ->
  exists l w',
    getChatsByUserRoute (mkGetChatsRequest (Some username)) w
    = (Returned (mkResponse 200 (PopulatedList l)), w')
    /\ Forall2 (fun c r => exists pc, r = Doc pc /\ chat_id c = Some (pc_id pc))
               (superset_chats [username] w) l
    /\ length (oplog w') = length (oplog w) + S (length l).
Proof.
  intros Hname Hnf. apply String.eqb_neq in Hname.
  unfold getChatsByUserRoute, truthy. simpl. rewrite Hname. simpl.
  apply no_fault_S in Hnf as [Hhd Hnf]. specialize (Hnf (ChatFind [username])).
  unfold superset_chats in *. rewrite length_fmap in Hnf.
  rewrite <- (filter_matches_all [username]) in * by done.
  set (ds := filter (fun d => matches_all [username] d) (chatColl w)) in *.
  destruct (getChatsByUser_enrich_run ds [] (begin_call (ChatFind [username]) w))
    as (l & Hrun & Hl); [| done |].
  { apply Forall_forall. intros d Hd. by apply list_elem_of_filter in Hd as [_ Hd]. }
  erewrite try_catch_bind_run by (by apply getChatsByParticipants_run_ok).
  fold ds. unfold try_catch, bind. rewrite Hrun. simpl.
  eexists _, _. split; [reflexivity |]. split.
  - apply Forall2_fmap_l. eapply Forall2_impl; [exact Hl |].
    intros d r (pc & -> & Hid). exists pc. split; [done |]. simpl. by rewrite Hid.
  - simpl. rewrite !length_app, length_fmap. simpl.
    apply Forall2_length in Hl. lia.
Qed.

Lemma getChatsByUserRoute_lists_chats_of_user_witness :
  exists l w',
    getChatsByUserRoute (mkGetChatsRequest (Some "bob")) Examples.world1
    = (Returned (mkResponse 200 (PopulatedList l)), w')
    /\ length l = 1.
Proof.
  destruct (getChatsByUserRoute_lists_chats_of_user "bob" Examples.world1)
    as (l & w' & Hrun & Hl & _); [discriminate | reflexivity |].
  exists l, w'. split; [exact Hrun |].
  apply Forall2_length in Hl. rewrite <- Hl. reflexivity.
Defined.

(** X26. What [addParticipantToChatRoute] answers for a valid request
    when no storage call throws: for a user id that is not in the user
    collection, 500 with "Failed to add participant to chat room User not
    found: <id>", after the user lookup only; for a chat id no stored chat
    has, 500 with "Failed to add participant to chat room Failed to add
    participant to chat"; for an existing user and a stored chat, 200 with
    that chat, which has the requested id and lists the user. *)
Theorem addParticipantToChatRoute_answers
    (req : AddParticipantRequest) (userId : string) (w : World) :
  ap_userId req = Some userId -> userId <> "" -> ap_chatId req <> "" ->
  (users w !! userId = None -> no_fault 1 w = true ->
   addParticipantToChatRoute req w
   = (Returned (mkResponse 500
        (Text ("Failed to add participant to chat room User not found: " +:+ userId))),
      begin_call (UserFindById userId) w))
  /\ (is_Some (users w !! userId) -> no_fault 2 w = true ->
      Forall (fun d => cd_id d <> ap_chatId req) (chatColl w) ->
      (addParticipantToChatRoute req w).1
      = Returned (mkResponse 500
          (Text "Failed to add participant to chat room Failed to add participant to chat")))
  /\ (forall l1 d l2,
        is_Some (users w !! userId) -> no_fault 2 w = true ->
        chatColl w = l1 ++ d :: l2 ->
        Forall (fun x => cd_id x <> ap_chatId req) l1 -> cd_id d = ap_chatId req ->
        exists c,
          (addParticipantToChatRoute req w).1 = Returned (mkResponse 200 (ChatBody c))
          /\ chat_id c = Some (ap_chatId req)
          /\ userId ∈ participants c).
Proof.
  intros Hreq Huser Hchat.
  apply String.eqb_neq in Huser. apply String.eqb_neq in Hchat.
  unfold addParticipantToChatRoute, isAddParticipantRequestValid, truthy.
  rewrite Hreq, Huser, Hchat. simpl. split; [| split].
  - intros Hnone Hnf. apply no_fault_S in Hnf as [Hhd _].
    unfold try_catch at 1. unfold bind at 1.
    unfold addParticipantToChat, try_catch, bind, UserModel_findById.
    rewrite storage_ok by done. simpl. by rewrite Hnone.
  - intros [u Hu] Hnf Hnone. apply no_fault_2 in Hnf as [Hhd1 Hhd2].
    unfold try_catch at 1. unfold bind at 1.
    unfold addParticipantToChat, try_catch, bind, UserModel_findById,
      ChatModel_findByIdAndUpdate.
    rewrite storage_ok by done. simpl. rewrite Hu.
    rewrite storage_ok by done. simpl.
    by rewrite update_by_id_None by done.
  - intros l1 d l2 [u Hu] Hnf Hsplit Hl1 Hd.
    erewrite try_catch_bind_run
      by (by apply (addParticipantToChat_run_found _ _ _ u l1 l2 d)).
    eexists. split; [reflexivity |]. simpl. split; [by rewrite Hd |].
    unfold addToSet_participants.
    destruct (Server.includes userId (cd_participants d)) eqn:Hinc; simpl.
    + by apply includes_spec.
    + apply elem_of_app. right. apply list_elem_of_here.
Qed.

Lemma addParticipantToChatRoute_answers_witness :
  (addParticipantToChatRoute (mkAddParticipantRequest "1" (Some "carol")) Examples.world1).1
  = Returned (mkResponse 500
      (Text "Failed to add participant to chat room User not found: carol")).
Proof.
  destruct (addParticipantToChatRoute_answers
              (mkAddParticipantRequest "1" (Some "carol")) "carol" Examples.world1)
    as [Hmissing _]; [reflexivity | discriminate | simpl; discriminate |].
  by rewrite Hmissing.
Defined.

(** ** Rooms *)

(** X18. Joining and leaving a chat room.  'leaveChat' without a chat id
    (or with the empty string) changes nothing.  For a non-empty id,
    'leaveChat' after 'joinChat' leaves the connection out of the room, so
    an event addressed to that room no longer reaches it, while its
    membership of every other room is as before joining.  'joinChat' has no
    such guard: it also joins the room named by the empty string, which
    'leaveChat' then cannot leave. *)
Theorem joinChat_leaveChat (rooms : gset string) :
  leaveChat None rooms = rooms
  /\ leaveChat (Some "") rooms = rooms
  /\ (forall chatId e, chatId <> "" -> em_room e = chatId ->
        receives (joinChat chatId rooms) e = true
        /\ receives (leaveChat (Some chatId) (joinChat chatId rooms)) e = false)
  /\ (forall chatId room, chatId <> "" -> room <> chatId ->
        (room ∈ leaveChat (Some chatId) (joinChat chatId rooms) <-> room ∈ rooms))
  /\ "" ∈ leaveChat (Some "") (joinChat "" rooms).
Proof.
  split; [done |]. split; [done |]. split; [| split].
  - intros chatId e Hne <-. apply String.eqb_neq in Hne.
    unfold receives, leaveChat, joinChat, truthy. rewrite Hne. simpl. split.
    + apply bool_decide_eq_true. by apply elem_of_union_l, elem_of_singleton.
    + apply bool_decide_eq_false. intros [_ Hout]%elem_of_difference.
      apply Hout. by apply elem_of_singleton.
  - intros chatId room Hne Hroom. apply String.eqb_neq in Hne.
    unfold leaveChat, joinChat, truthy. rewrite Hne. simpl.
    rewrite elem_of_difference, elem_of_union, !elem_of_singleton. tauto.
  - unfold leaveChat, joinChat. simpl. by apply elem_of_union_l, elem_of_singleton.
Qed.

Lemma joinChat_leaveChat_witness :
  receives (joinChat "1" ∅) (mkEmit "1" (mkChatUpdate (ErrorObj "x") "newMessage")) = true
  /\ receives (leaveChat (Some "1") (joinChat "1" ∅))
       (mkEmit "1" (mkChatUpdate (ErrorObj "x") "newMessage")) = false.
Proof.
  destruct (joinChat_leaveChat ∅) as (_ & _ & Hjoin & _).
  apply (Hjoin "1" (mkEmit "1" (mkChatUpdate (ErrorObj "x") "newMessage")));
    [discriminate | reflexivity].
Defined.

End ServerProperties.

(** * Properties of the client hook *)

Section ClientProperties.

Import Client.

Lemma participants_includes_spec (l : list string) (x : string) :
  includes l x = true <-> x ∈ l.
Proof.
  unfold includes. rewrite existsb_exists. split.
  - intros (y & Hy & Heq). apply String.eqb_eq in Heq. subst.
    by apply list_elem_of_In.
  - intros Hx. exists x. split; [by apply list_elem_of_In | apply String.eqb_refl].
Qed.

Lemma some_id_spec (id : string) (l : list Chat) :
  some_id id l = true <-> exists c, c ∈ l /\ chat_id c = id.
Proof.
  unfold some_id. rewrite existsb_exists. split.
  - intros (c & Hc & Heq). apply String.eqb_eq in Heq.
    exists c. split; [by apply list_elem_of_In | done].
  - intros (c & Hc & Heq). exists c.
    split; [by apply list_elem_of_In | by apply String.eqb_eq].
Qed.

Lemma some_id_app (id : string) (l : list Chat) (c : Chat) :
  chat_id c = id -> some_id id (l ++ [c]) = true.
Proof.
  intros Heq. apply some_id_spec. exists c. split; [set_solver | done].
Qed.

(** C8. An event whose type is neither "created" nor "newMessage" makes
    [handleChatUpdate] throw, with the message
    "Invalid chat update type: <type>"; no state is written. *)
Theorem handleChatUpdate_unknown_type_throws
    (username : string) (selected : option Chat)
    (chatUpdate : ChatUpdatePayload) (st : HookState) :
  type chatUpdate <> "created" ->
  type chatUpdate <> "newMessage" ->
  handleChatUpdate username selected chatUpdate st
  = Thrown ("Invalid chat update type: " +:+ type chatUpdate).
Proof.
  intros Hc Hn. unfold handleChatUpdate.
  apply String.eqb_neq in Hc. apply String.eqb_neq in Hn.
  by rewrite Hc, Hn.
Qed.

Lemma handleChatUpdate_unknown_type_throws_witness :
  handleChatUpdate "alice" None
    (mkChatUpdate (mkChat "c1" ["alice"; "bob"] []) "deleted")
    (mkHookState [] None)
  = Thrown "Invalid chat update type: deleted".
Proof.
  apply (handleChatUpdate_unknown_type_throws "alice" None
           (mkChatUpdate (mkChat "c1" ["alice"; "bob"] []) "deleted")
           (mkHookState [] None)); simpl; discriminate.
Defined.

(** C9. On a "created" event the handler returns normally and leaves
    [selectedChat] alone; it appends the event's chat to [chats] when the
    event's participants include the current user and no chat of the list
    has the event chat's [_id], and otherwise leaves [chats] as it was.
    Handling the same event again (under any closure) changes nothing. *)
Theorem handleChatUpdate_created_merge
    (username : string) (selected : option Chat)
    (chatUpdate : ChatUpdatePayload) (st : HookState) :
  type chatUpdate = "created" ->
  exists st1,
    handleChatUpdate username selected chatUpdate st = Returned st1
    /\ selectedChat st1 = selectedChat st
    /\ (username ∈ participants (chat chatUpdate) ->
        (forall c, c ∈ chats st -> chat_id c <> chat_id (chat chatUpdate)) ->
        chats st1 = chats st ++ [chat chatUpdate])
    /\ (username ∉ participants (chat chatUpdate)
        \/ (exists c, c ∈ chats st /\ chat_id c = chat_id (chat chatUpdate)) ->
        chats st1 = chats st)
    /\ (forall selected',
          handleChatUpdate username selected' chatUpdate st1 = Returned st1).
Proof.
  intros Ht. unfold handleChatUpdate. rewrite Ht. simpl.
  replace (if 0 <? length (participants (chat chatUpdate))
           then flat (participants (chat chatUpdate))
           else participants (chat chatUpdate))
    with (participants (chat chatUpdate)) by (by destruct (0 <? _)).
  destruct (includes (participants (chat chatUpdate)) username) eqn:Hinc.
  - apply participants_includes_spec in Hinc. unfold setChats. simpl.
    destruct (some_id (chat_id (chat chatUpdate)) (chats st)) eqn:Hold; simpl.
    + exists (mkHookState (chats st) (selectedChat st)). simpl.
      split; [done |]. split; [done |]. split.
      { intros _ Hfresh. apply some_id_spec in Hold.
        destruct Hold as (c & Hc & Heq). by destruct (Hfresh c Hc). }
      split; [done |].
      intros _. by rewrite Hold.
    + eexists. split; [reflexivity |]. simpl.
      split; [done |]. split; [done |]. split.
      { intros [Hnot | Hex]; [done |]. apply some_id_spec in Hex. congruence. }
      intros _. by rewrite some_id_app.
  - exists st. split; [done |]. split; [done |]. split.
    { intros Hin. apply participants_includes_spec in Hin. congruence. }
    split; [done |]. done.
Qed.

Lemma handleChatUpdate_created_merge_witness :
  exists st1,
    handleChatUpdate "bob" None
      (mkChatUpdate (mkChat "c2" ["alice"; "bob"] []) "created")
      (mkHookState [mkChat "c1" ["bob"; "carol"] []] None) = Returned st1
    /\ chats st1 = [mkChat "c1" ["bob"; "carol"] []; mkChat "c2" ["alice"; "bob"] []].
Proof.
  destruct (handleChatUpdate_created_merge "bob" None
              (mkChatUpdate (mkChat "c2" ["alice"; "bob"] []) "created")
              (mkHookState [mkChat "c1" ["bob"; "carol"] []] None) eq_refl)
    as (st1 & Hrun & _ & Happ & _).
  exists st1. split; [exact Hrun |].
  apply Happ.
  - simpl. set_solver.
  - simpl. intros c Hc. apply list_elem_of_singleton in Hc. subst c. simpl. discriminate.
Defined.

(** ** "newMessage" events and the list of chats *)

Lemma map_replace_ids (id : string) (c' : Chat) (l : list Chat) :
  chat_id c' = id ->
  chat_id <$> map (fun c => if String.eqb (chat_id c) id then c' else c) l
  = chat_id <$> l.
Proof.
  intros Hid. induction l as [| c l IH]; [done |]. simpl. f_equal; [| exact IH].
  destruct (String.eqb (chat_id c) id) eqn:Heq; [| done].
  apply String.eqb_eq in Heq. congruence.
Qed.

Lemma map_replace_none (id : string) (c' : Chat) (l : list Chat) :
  (forall c, c ∈ l -> chat_id c <> id) ->
  map (fun c => if String.eqb (chat_id c) id then c' else c) l = l.
Proof.
  intros Hl. induction l as [| c l IH]; [done |]. simpl.
  rewrite IH by (intros c0 Hc0; apply Hl; by apply list_elem_of_further).
  assert (Hc : chat_id c <> id) by (apply Hl, list_elem_of_here).
  apply String.eqb_neq in Hc. by rewrite Hc.
Qed.

(** X19. On a "newMessage" event the handler returns normally and never
    adds, removes or reorders chats: the list keeps its ids, in order.  Each
    listed chat with the event chat's [_id] is replaced by the event's chat
    and every other chat is kept; an event for a chat that is not listed
    leaves the list as it was.  [selectedChat] becomes the event's chat
    exactly when the chat selected in the handler's closure has the same
    [_id], and is unchanged otherwise. *)
Theorem handleChatUpdate_newMessage_replaces
    (username : string) (selected : option Chat)
    (chatUpdate : ChatUpdatePayload) (st : HookState) :
  type chatUpdate = "newMessage" ->
  exists st1,
    handleChatUpdate username selected chatUpdate st = Returned st1
    /\ chat_id <$> chats st1 = chat_id <$> chats st
    /\ (forall i c, chats st !! i = Some c ->
        chats st1 !! i
        = Some (if String.eqb (chat_id c) (chat_id (chat chatUpdate))
                then chat chatUpdate else c))
    /\ ((forall c, c ∈ chats st -> chat_id c <> chat_id (chat chatUpdate)) ->
        chats st1 = chats st)
    /\ ((exists sel, selected = Some sel /\ chat_id sel = chat_id (chat chatUpdate)) ->
        selectedChat st1 = Some (chat chatUpdate))
    /\ ((forall sel, selected = Some sel -> chat_id sel <> chat_id (chat chatUpdate)) ->
        selectedChat st1 = selectedChat st).
Proof.
  intros Ht. unfold handleChatUpdate. rewrite Ht. simpl.
  eexists. split; [reflexivity |].
  set (st0 := match selected with
              | Some sel =>
                  if String.eqb (chat_id sel) (chat_id (chat chatUpdate))
                  then setSelectedChat (chat chatUpdate) st else st
              | None => st
              end).
  assert (Hchats : chats st0 = chats st).
  { unfold st0. destruct selected as [sel |]; [| done].
    by destruct (String.eqb (chat_id sel) (chat_id (chat chatUpdate))). }
  unfold setChats. simpl. rewrite Hchats.
  split; [by apply map_replace_ids |]. split.
  { intros i c Hi. change (map ?f ?l) with (f <$> l).
    by rewrite list_lookup_fmap, Hi. }
  split; [by apply map_replace_none |]. split.
  - intros (sel & -> & Hid). unfold st0. apply String.eqb_eq in Hid. by rewrite Hid.
  - intros Hsel. unfold st0. destruct selected as [sel |]; [| done].
    specialize (Hsel sel eq_refl). apply String.eqb_neq in Hsel. by rewrite Hsel.
Qed.

Lemma handleChatUpdate_newMessage_replaces_witness :
  exists st1,
    handleChatUpdate "bob" None
      (mkChatUpdate (mkChat "c1" ["alice"; "bob"] [mkMessage "hi" "alice"]) "newMessage")
      (mkHookState [mkChat "c1" ["alice"; "bob"] []; mkChat "c2" ["bob"; "carol"] []] None)
    = Returned st1
    /\ chat_id <$> chats st1 = ["c1"; "c2"].
Proof.
  destruct (handleChatUpdate_newMessage_replaces "bob" None
              (mkChatUpdate (mkChat "c1" ["alice"; "bob"] [mkMessage "hi" "alice"])
                 "newMessage")
              (mkHookState [mkChat "c1" ["alice"; "bob"] []; mkChat "c2" ["bob"; "carol"] []]
                 None) eq_refl) as (st1 & Hrun & Hids & _).
  exists st1. split; [exact Hrun | exact Hids].
Defined.

(** X20. The handler keeps the list of chats free of duplicate ids: if
    no two listed chats share an [_id] before an event, then after any
    event the handler accepts none do. *)
Theorem handleChatUpdate_keeps_ids_distinct
    (username : string) (selected : option Chat)
    (chatUpdate : ChatUpdatePayload) (st st1 : HookState) :
  NoDup (chat_id <$> chats st) ->
  handleChatUpdate username selected chatUpdate st = Returned st1 ->
  NoDup (chat_id <$> chats st1).
Proof.
  intros Hnodup. unfold handleChatUpdate.
  destruct (String.eqb (type chatUpdate) "created").
  - replace (if 0 <? length (participants (chat chatUpdate))
             then flat (participants (chat chatUpdate))
             else participants (chat chatUpdate))
      with (participants (chat chatUpdate)) by (by destruct (0 <? _)).
    destruct (includes _ username); [| by intros [= <-]].
    intros [= <-]. unfold setChats. simpl.
    destruct (some_id (chat_id (chat chatUpdate)) (chats st)) eqn:Hold; simpl; [done |].
    rewrite fmap_app. simpl. apply NoDup_app. split; [done |].
    split; [| apply NoDup_singleton].
    intros id Hid Hid'. apply list_elem_of_singleton in Hid'. subst id.
    apply list_elem_of_fmap in Hid as (c & Heq & Hc).
    assert (some_id (chat_id (chat chatUpdate)) (chats st) = true); [| congruence].
    apply some_id_spec. by exists c.
  - destruct (String.eqb (type chatUpdate) "newMessage"); [| discriminate].
    intros [= <-]. unfold setChats. simpl.
    rewrite map_replace_ids by done.
    destruct selected as [sel |]; [| done].
    by destruct (String.eqb (chat_id sel) (chat_id (chat chatUpdate))).
Qed.

Lemma handleChatUpdate_keeps_ids_distinct_witness :
  exists st1,
    handleChatUpdate "bob" None
      (mkChatUpdate (mkChat "c2" ["alice"; "bob"] []) "created")
      (mkHookState [mkChat "c1" ["bob"; "carol"] []] None) = Returned st1
    /\ NoDup (chat_id <$> chats st1).
Proof.
  eexists. split; [reflexivity |].
  apply (handleChatUpdate_keeps_ids_distinct "bob" None
           (mkChatUpdate (mkChat "c2" ["alice"; "bob"] []) "created")
           (mkHookState [mkChat "c1" ["bob"; "carol"] []] None));
    [| reflexivity].
  simpl. apply NoDup_singleton.
Defined.

End ClientProperties.

(** * Properties of the other handlers of [useDirectMessage] *)

Section HandlerProperties.

Import Client ClientHandlers.

Variable trim : string -> string.

(** X21. [handleCreateChat] appends the created chat without looking for
    it in the list, so the order of the REST answer and of the "created"
    event matters.  For a chat that is not listed yet and has the current
    user as a participant: when the handler runs first, the later "created"
    event finds the chat and the list holds it once; when the event is
    handled first, the handler appends the chat a second time. *)
Theorem handleCreateChat_and_created_event
    (username : string) (selected : option Chat) (newChat : Chat) (st : State) :
  trim (chatToCreate st) <> "" ->
  username ∈ participants newChat ->
  (forall c, c ∈ chats (hook st) -> chat_id c <> chat_id newChat) ->
  (exists st2,
      handleChatUpdate username selected (mkChatUpdate newChat "created")
        (hook (run_state (handleCreateChat trim username (Resolved (Some newChat)) st)))
      = Returned st2
      /\ chats st2 = chats (hook st) ++ [newChat])
  /\ (exists st1,
        handleChatUpdate username selected (mkChatUpdate newChat "created") (hook st)
        = Returned st1
        /\ chats (hook (run_state
                    (handleCreateChat trim username (Resolved (Some newChat))
                       (mkState st1 (showCreatePanel st) (chatToCreate st) (newMessage st)))))
           = chats (hook st) ++ [newChat; newChat]).
Proof.
  intros Htrim Hin Hfresh. apply String.eqb_neq in Htrim.
  assert (Hinc : includes (participants newChat) username = true)
    by (by apply participants_includes_spec).
  assert (Hold : some_id (chat_id newChat) (chats (hook st)) = false).
  { destruct (some_id (chat_id newChat) (chats (hook st))) eqn:Hold; [| done].
    apply some_id_spec in Hold as (c & Hc & Heq). by destruct (Hfresh c Hc). }
  unfold handleCreateChat, handleChatUpdate. simpl. rewrite Htrim. simpl.
  replace (if 0 <? length (participants newChat)
           then flat (participants newChat) else participants newChat)
    with (participants newChat) by (by destruct (0 <? _)).
  rewrite Hinc. unfold setChats. simpl. split.
  - rewrite some_id_app by done. simpl. by eexists.
  - rewrite Hold. simpl. eexists. split; [reflexivity |]. simpl.
    by rewrite <- app_assoc.
Qed.

(** X22. [handleSendMessage] sends nothing and changes nothing when the
    trimmed input is empty, when no chat is selected, or when the selected
    chat has an empty [_id].  Otherwise it makes exactly one request, with
    the trimmed text, the current user as sender and the selected chat's
    [_id]; it never touches the chats or the selection (the new message is
    shown only when the "newMessage" event arrives) and emits nothing on the
    socket; the input is cleared when the request succeeds and kept when it
    fails. *)
Theorem handleSendMessage_behaviour
    (username : string) (now : Z) (response : Await unit) (st : State) :
  hook (run_state (handleSendMessage trim username now response st)) = hook st
  /\ run_emits (handleSendMessage trim username now response st) = []
  /\ (trim (newMessage st) = "" \/ selectedChat (hook st) = None
      \/ (exists sel, selectedChat (hook st) = Some sel /\ chat_id sel = "") ->
      handleSendMessage trim username now response st = mkRun st [] [])
  /\ (forall sel,
        trim (newMessage st) <> "" -> selectedChat (hook st) = Some sel ->
        chat_id sel <> "" ->
        run_requests (handleSendMessage trim username now response st)
        = [ReqSendMessage (mkOutMessage (trim (newMessage st)) username now) (chat_id sel)]
        /\ newMessage (run_state (handleSendMessage trim username now response st))
           = match response with
             | Resolved _ => ""
             | Rejected => newMessage st
             end).
Proof.
  unfold handleSendMessage. destruct (selectedChat (hook st)) as [sel |] eqn:Hsel.
  - destruct (String.eqb (trim (newMessage st)) "") eqn:Hmsg; simpl.
    { split; [done |]. split; [done |]. split; [done |].
      intros sel' Hne. apply String.eqb_neq in Hne. congruence. }
    destruct (String.eqb (chat_id sel) "") eqn:Hid; simpl.
    { split; [done |]. split; [done |]. split; [done |].
      intros sel' _ [= <-] Hne. apply String.eqb_neq in Hne. congruence. }
    apply String.eqb_neq in Hmsg. apply String.eqb_neq in Hid.
    split; [by destruct response |]. split; [by destruct response |]. split.
    + intros [H | [H | (sel' & [= <-] & H)]]; done.
    + intros sel' _ [= <-] _. by destruct response.
  - split; [done |]. split; [done |]. split; [done |]. by intros sel' _ [=].
Qed.

(** X23. [handleChatSelect] never changes the list of chats.  Without a
    chat id (or with the empty one) it clears the selection, asks for
    nothing and emits nothing.  With a chat id it asks once for that chat;
    when the request succeeds the answer becomes the selection and one
    'joinChat' is emitted for the requested id; when it fails the selection
    stays as it was and no 'joinChat' is emitted. *)
Theorem handleChatSelect_behaviour
    (chatID : option string) (response : Await Chat) (st : State) :
  chats (hook (run_state (handleChatSelect chatID response st))) = chats (hook st)
  /\ (chatID = None \/ chatID = Some "" ->
      selectedChat (hook (run_state (handleChatSelect chatID response st))) = None
      /\ run_emits (handleChatSelect chatID response st) = []
      /\ run_requests (handleChatSelect chatID response st) = [])
  /\ (forall id, chatID = Some id -> id <> "" ->
      run_requests (handleChatSelect chatID response st) = [ReqGetChatById id]
      /\ match response with
         | Resolved c =>
             selectedChat (hook (run_state (handleChatSelect chatID response st))) = Some c
             /\ run_emits (handleChatSelect chatID response st) = [EmitJoinChat id]
         | Rejected =>
             handleChatSelect chatID response st = mkRun st [] [ReqGetChatById id]
         end).
Proof.
  unfold handleChatSelect. destruct chatID as [id0 |].
  - destruct (String.eqb id0 "") eqn:Hid.
    + apply String.eqb_eq in Hid. subst id0.
      split; [done |]. split; [done |]. by intros id [= <-].
    + apply String.eqb_neq in Hid. split; [by destruct response |]. split.
      * intros [H | [= H]]; done.
      * intros id [= <-] _. by destruct response.
  - split; [done |]. split; [done |]. by intros id [=].
Qed.

End HandlerProperties.

Lemma handleCreateChat_and_created_event_witness :
  exists st1,
    Client.handleChatUpdate "alice" None
      (Client.mkChatUpdate (Client.mkChat "c1" ["alice"; "bob"] []) "created")
      (Client.mkHookState [] None) = Client.Returned st1
    /\ Client.chats (ClientHandlers.hook (ClientHandlers.run_state
         (ClientHandlers.handleCreateChat ClientHandlers.trim_ascii "alice"
            (ClientHandlers.Resolved (Some (Client.mkChat "c1" ["alice"; "bob"] [])))
            (ClientHandlers.mkState st1 true " bob" ""))))
       = [Client.mkChat "c1" ["alice"; "bob"] []; Client.mkChat "c1" ["alice"; "bob"] []].
Proof.
  destruct (handleCreateChat_and_created_event ClientHandlers.trim_ascii "alice" None
              (Client.mkChat "c1" ["alice"; "bob"] [])
              (ClientHandlers.mkState (Client.mkHookState [] None) true " bob" ""))
    as [_ Hsecond].
  - vm_compute. discriminate.
  - simpl. apply list_elem_of_here.
  - simpl. intros c Hc. by apply elem_of_nil in Hc.
  - exact Hsecond.
Defined.

Lemma handleSendMessage_behaviour_witness :
  ClientHandlers.run_requests
    (ClientHandlers.handleSendMessage ClientHandlers.trim_ascii "bob" 5%Z
       (ClientHandlers.Resolved tt)
       (ClientHandlers.mkState
          (Client.mkHookState [] (Some (Client.mkChat "c1" ["alice"; "bob"] [])))
          false "" "  hello "))
  = [ClientHandlers.ReqSendMessage (ClientHandlers.mkOutMessage "hello" "bob" 5%Z) "c1"].
Proof.
  destruct (handleSendMessage_behaviour ClientHandlers.trim_ascii "bob" 5%Z
              (ClientHandlers.Resolved tt)
              (ClientHandlers.mkState
                 (Client.mkHookState [] (Some (Client.mkChat "c1" ["alice"; "bob"] [])))
                 false "" "  hello ")) as (_ & _ & _ & Hsend).
  destruct (Hsend (Client.mkChat "c1" ["alice"; "bob"] [])) as [Hreq _].
  - vm_compute. discriminate.
  - reflexivity.
  - simpl. discriminate.
  - rewrite Hreq. reflexivity.
Defined.

Lemma handleChatSelect_behaviour_witness :
  ClientHandlers.run_emits
    (ClientHandlers.handleChatSelect (Some "c1")
       (ClientHandlers.Resolved (Client.mkChat "c1" ["alice"; "bob"] []))
       (ClientHandlers.mkState (Client.mkHookState [] None) false "" ""))
  = [ClientHandlers.EmitJoinChat "c1"].
Proof.
  destruct (handleChatSelect_behaviour (Some "c1")
              (ClientHandlers.Resolved (Client.mkChat "c1" ["alice"; "bob"] []))
              (ClientHandlers.mkState (Client.mkHookState [] None) false "" ""))
    as (_ & _ & Hsome).
  destruct (Hsome "c1" eq_refl) as [_ [_ Hemit]]; [discriminate | exact Hemit].
Defined.

(** * Properties of [useNimGamePage] *)

Section NimProperties.

Import NimGame.

Lemma js_le_trans (a b c : JsNumber) :
  js_le a b = true -> js_le b c = true -> js_le a c = true.
Proof.
  destruct a as [| [] | x], b as [| [] | y], c as [| [] | z]; simpl; try done.
  rewrite !QArith_base.Qle_bool_iff. apply QArith_base.Qle_trans.
Qed.

Lemma isValidMove_input (gameState : GameInstance) (num : JsNumber) :
  isValidMove gameState num = true -> isValidInput num = true.
Proof. unfold isValidMove. by intros [H _]%andb_true_iff. Qed.

(** X24. The state variable [move] stays a valid input: if it is between
    1 and 3 before, it is between 1 and 3 after [handleInputChange],
    whatever was typed and however it parses, and after [handleMakeMove],
    whether or not a move was sent. *)
Theorem move_stays_between_1_and_3
    (Number : string -> JsNumber) (gameState : GameInstance)
    (username value : string) (move : JsNumber) :
  isValidInput move = true ->
  isValidInput (handleInputChange Number gameState value move) = true
  /\ isValidInput (handleMakeMove gameState username move).2 = true.
Proof.
  intros Hmove. split.
  - unfold handleInputChange.
    destruct (String.eqb value ""); simpl; [done |].
    destruct (isNaN (Number value)); simpl; [done |].
    destruct (isValidMove gameState (Number value)) eqn:Hvalid; simpl; [| done].
    by apply isValidMove_input in Hvalid.
  - unfold handleMakeMove.
    by destruct (isValidMove gameState move).
Qed.

(** X25. [handleMakeMove] emits at most one 'makeMove', and only for a
    move between 1 and 3 that does not exceed the remaining objects; the
    event carries that move, the current user as player and the game's id in
    both places, and [move] is then reset to 1.  When fewer than one object
    remains (or the count is not a number) it emits nothing and
    [handleInputChange] accepts no input. *)
Theorem handleMakeMove_emits_only_valid_moves
    (Number : string -> JsNumber) (gameState : GameInstance)
    (username value : string) (move : JsNumber) :
  ((handleMakeMove gameState username move).1 = []
   /\ (handleMakeMove gameState username move).2 = move
   \/ (handleMakeMove gameState username move).1
      = [mkGameMove (gameID gameState) username (gameID gameState) move]
      /\ (handleMakeMove gameState username move).2 = js_1
      /\ js_ge move js_1 = true /\ js_le move js_3 = true
      /\ js_le move (remainingObjects gameState) = true)
  /\ (js_ge (remainingObjects gameState) js_1 = false ->
      (handleMakeMove gameState username move).1 = []
      /\ handleInputChange Number gameState value move = move).
Proof.
  split.
  - unfold handleMakeMove.
    destruct (isValidMove gameState move) eqn:Hvalid; simpl; [| by left].
    right. unfold isValidMove, isValidInput in Hvalid.
    apply andb_true_iff in Hvalid as [[Hge Hle]%andb_true_iff Hrem]. done.
  - intros Hnone.
    assert (Hinvalid : forall num, isValidMove gameState num = false).
    { intros num. destruct (isValidMove gameState num) eqn:Hvalid; [| done].
      unfold isValidMove, isValidInput in Hvalid.
      apply andb_true_iff in Hvalid as [[Hge Hle]%andb_true_iff Hrem].
      unfold js_ge in *. by rewrite (js_le_trans _ _ _ Hge Hrem) in Hnone. }
    unfold handleMakeMove, handleInputChange. rewrite !Hinvalid. simpl.
    split; [done |]. by rewrite orb_true_r.
Qed.

End NimProperties.

Lemma move_stays_between_1_and_3_witness :
  NimGame.isValidInput
    (NimGame.handleInputChange (fun _ => NimGame.js_3)
       (NimGame.mkGameInstance "g1" NimGame.js_3) "3" NimGame.js_1) = true.
Proof.
  apply (move_stays_between_1_and_3 (fun _ => NimGame.js_3)
           (NimGame.mkGameInstance "g1" NimGame.js_3) "alice" "3" NimGame.js_1).
  reflexivity.
Defined.

Lemma handleMakeMove_emits_only_valid_moves_witness :
  (NimGame.handleMakeMove
     (NimGame.mkGameInstance "g1" (NimGame.Finite (QArith_base.Qmake 0 1)))
     "alice" NimGame.js_1).1 = [].
Proof.
  apply (handleMakeMove_emits_only_valid_moves (fun _ => NimGame.js_1)
           (NimGame.mkGameInstance "g1" (NimGame.Finite (QArith_base.Qmake 0 1)))
           "alice" "1" NimGame.js_1).
  reflexivity.
Defined.
